(** * Weather-station message processing: extraction and aggregation

    A shallow embedding of [weather_data_processor.py] and of the loader
    [read_from_web_CSV] of [data_ingestion.py], with the properties of the
    measurement extractor, the batch processor and the aggregator.

    - Python values: [str] is [string] (ASCII text), [float] is the
      primitive binary64 [float], [None] is [option]'s [None].
    - The library calls the code makes ([re.search], [float], [pd.read_csv])
      are parameters of the embedding (class [Library]); [Re.search] and
      [PyFloat.float] are executable instances of the first two, used to run
      the code on concrete messages.
    - An exception is a value of [exn]; a method of the processor is a
      function from the object's state to an [outcome] that carries the
      state the object is left in.
    - The [logger] calls do not influence any value and are left out. *)

From Stdlib Require Import Ascii String PrimFloat FloatOps SpecFloat Uint63.
From stdpp Require Import gmap strings list sorting.

Local Open Scope string_scope.
Local Open Scope list_scope.

(** ** Regular expressions: an instance of [re.search]

    Python's pattern syntax on ASCII text: literals, [.], the classes
    [\d \D \s \S \w \W], the escapes [\a \f \n \r \t \v \xhh] and escaped
    punctuation, bracket sets with ranges and negation, the quantifiers
    [*], [+], [?], [{m}], [{m,}], [{,n}], [{m,n}] and their lazy forms,
    alternation, capturing and named groups, [(?:...)], the lookaheads
    [(?=...)] and [(?!...)], the anchors [^ $ \A \Z \b \B], and the flags
    [i], [m] and [s], inline at the start of the pattern or scoped to a
    group.  Outside this subset, and reported like an invalid pattern:
    back-references, lookbehind, conditional and atomic groups, possessive
    quantifiers, comments, octal, Unicode and named-character escapes, and
    the flags [a], [u], [L], [x]. *)
Module Re.

Inductive category := Digit | Space | Word.

Inductive set_item :=
| Item_literal (c : ascii)
| Item_range (lo hi : ascii)
| Item_category (negate : bool) (cat : category).

Inductive regex :=
| Empty
| Literal (ignore : bool) (c : ascii)
| Any (dotall : bool)
| In_set (ignore negate : bool) (items : list set_item)
| At_beginning (multiline : bool)
| At_end (multiline : bool)
| At_beginning_string
| At_end_string
| Boundary (negate : bool)
| Concat (r1 r2 : regex)
| Branch (r1 r2 : regex)
| Repeat (greedy : bool) (min : nat) (max : option nat) (r : regex)
| Group (i : nat) (r : regex)
| Assert (negate : bool) (r : regex).

Definition code (c : ascii) : nat := nat_of_ascii c.

Definition in_range (lo hi : nat) (c : ascii) : bool :=
  (lo <=? code c)%nat && (code c <=? hi)%nat.

Definition in_category (cat : category) (c : ascii) : bool :=
  match cat with
  | Digit => in_range 48 57 c
  | Space => in_range 9 13 c || in_range 28 32 c
  | Word => in_range 48 57 c || in_range 65 90 c || in_range 97 122 c
            || (code c =? 95)%nat
  end.

Definition in_item (it : set_item) (c : ascii) : bool :=
  match it with
  | Item_literal c' => (code c =? code c')%nat
  | Item_range lo hi => in_range (code lo) (code hi) c
  | Item_category negate cat => xorb negate (in_category cat c)
  end.

Definition lower (c : ascii) : ascii :=
  if in_range 65 90 c then ascii_of_nat (code c + 32) else c.

Definition upper (c : ascii) : ascii :=
  if in_range 97 122 c then ascii_of_nat (code c - 32) else c.

(** Membership in a set; when letter case is ignored, a character is in
    the set when its lower-case or its upper-case form is. *)
Definition in_set (ignore negate : bool) (items : list set_item) (c : ascii)
  : bool :=
  xorb negate
    (existsb (fun it => if ignore then in_item it (lower c)
                                      || in_item it (upper c)
                        else in_item it c) items).

Definition same_char (ignore : bool) (c c' : ascii) : bool :=
  if ignore then (code (lower c) =? code (lower c'))%nat
  else (code c =? code c')%nat.

Definition is_char (c : ascii) (n : nat) : bool := (code c =? n)%nat.

(** *** Parsing a pattern *)

(** The inline flags in force. *)
Record flags := {
  ignorecase : bool;
  multiline : bool;
  dotall : bool
}.

Definition no_flags : flags :=
  {| ignorecase := false; multiline := false; dotall := false |}.

Definition hex_digit (c : ascii) : option nat :=
  if in_range 48 57 c then Some (code c - 48)
  else if in_range 97 102 c then Some (code c - 87)
  else if in_range 65 70 c then Some (code c - 55)
  else None.

(** The control characters that have a letter escape. *)
Definition control_escape (c : ascii) : option ascii :=
  if is_char c 97 then Some (ascii_of_nat 7)
  else if is_char c 102 then Some (ascii_of_nat 12)
  else if is_char c 110 then Some (ascii_of_nat 10)
  else if is_char c 114 then Some (ascii_of_nat 13)
  else if is_char c 116 then Some (ascii_of_nat 9)
  else if is_char c 118 then Some (ascii_of_nat 11)
  else None.

Definition category_escape (c : ascii) : option set_item :=
  if is_char c 100 then Some (Item_category false Digit)
  else if is_char c 68 then Some (Item_category true Digit)
  else if is_char c 115 then Some (Item_category false Space)
  else if is_char c 83 then Some (Item_category true Space)
  else if is_char c 119 then Some (Item_category false Word)
  else if is_char c 87 then Some (Item_category true Word)
  else None.

(** What follows a backslash and is common to sets and sequences: a
    class, a control character, [\xhh], or an escaped character that is
    neither a letter nor a digit.  [b], [A], [B] and [Z] are decided by the
    caller. *)
Definition common_escape (s : list ascii) : option (set_item * list ascii) :=
  match s with
  | [] => None
  | c :: s1 =>
      match category_escape c with
      | Some it => Some (it, s1)
      | None =>
          match control_escape c with
          | Some ch => Some (Item_literal ch, s1)
          | None =>
              if is_char c 120 then
                match s1 with
                | h1 :: h2 :: s2 =>
                    d1 ← hex_digit h1; d2 ← hex_digit h2;
                    Some (Item_literal (ascii_of_nat (16 * d1 + d2)), s2)
                | _ => None
                end
              else if in_category Word c && negb (is_char c 95) then None
              else Some (Item_literal c, s1)
          end
      end
  end.

(** An escape inside a set, where [\b] is the backspace character. *)
Definition class_escape (s : list ascii) : option (set_item * list ascii) :=
  match s with
  | c :: s1 =>
      if is_char c 98 then Some (Item_literal (ascii_of_nat 8), s1)
      else common_escape s
  | [] => None
  end.

Definition set_member (c : ascii) (s1 : list ascii)
  : option (set_item * list ascii) :=
  if is_char c 92 then class_escape s1 else Some (Item_literal c, s1).

(** The items of a bracket set, up to the closing bracket, which stands
    for itself as long as the set is empty. *)
Fixpoint parse_set (fuel : nat) (nonempty : bool) (s : list ascii)
  : option (list set_item * list ascii) :=
  match fuel with
  | O => None
  | S fuel =>
      match s with
      | [] => None
      | c :: s1 =>
          if is_char c 93 && nonempty then Some ([], s1)
          else
            match set_member c s1 with
            | None => None
            | Some (it, s2) =>
                match s2 with
                | d :: s3 =>
                    if is_char d 45 then
                      match s3 with
                      | [] => None
                      | h :: s4 =>
                          if is_char h 93 then
                            Some ([it; Item_literal d], s4)
                          else
                            match it, set_member h s4 with
                            | Item_literal lo, Some (Item_literal hi, s5) =>
                                if (code hi <? code lo)%nat then None
                                else
                                  '(items, s6) ← parse_set fuel true s5;
                                  Some (Item_range lo hi :: items, s6)
                            | _, _ => None
                            end
                      end
                    else
                      '(items, s6) ← parse_set fuel true s2;
                      Some (it :: items, s6)
                | [] => None
                end
            end
      end
  end.

(** What a quantifier position holds. *)
Inductive quantifier :=
| No_quantifier
| Bad_quantifier
| Quantifier (min : nat) (max : option nat) (rest : list ascii).

(** A run of decimal digits: its value, whether it is not empty, and the
    rest. *)
Fixpoint digits (s : list ascii) (n : N) (seen : bool)
  : N * bool * list ascii :=
  match s with
  | c :: s1 =>
      if in_range 48 57 c
      then digits s1 (10 * n + N.of_nat (code c - 48))%N true
      else (n, seen, s)
  | [] => (n, seen, s)
  end.

(** The largest bound of a repetition is MAXREPEAT - 1. *)
Definition MAXREPEAT : N := 4294967295%N.

(** Braces that do not have the form of a repetition stand for
    themselves. *)
Definition read_quantifier (s : list ascii) : quantifier :=
  match s with
  | [] => No_quantifier
  | c :: s1 =>
      if is_char c 42 then Quantifier 0 None s1
      else if is_char c 43 then Quantifier 1 None s1
      else if is_char c 63 then Quantifier 0 (Some 1) s1
      else if is_char c 123 then
        match s1 with
        | [] => No_quantifier
        | e :: _ =>
            if is_char e 125 then No_quantifier
            else
              let '(lo, has_lo, s2) := digits s1 0 false in
              let '(hi, has_hi, s3) :=
                match s2 with
                | d :: s2' => if is_char d 44 then digits s2' 0 false
                              else (lo, has_lo, s2)
                | [] => (lo, has_lo, s2)
                end in
              match s3 with
              | f :: s4 =>
                  if is_char f 125 then
                    if (has_lo && (MAXREPEAT <=? lo)%N)
                       || (has_hi && (MAXREPEAT <=? hi)%N)
                    then Bad_quantifier
                    else if has_hi && (hi <? (if has_lo then lo else 0))%N
                    then Bad_quantifier
                    else Quantifier
                           (if has_lo then N.to_nat lo else 0)
                           (if has_hi then Some (N.to_nat hi) else None) s4
                  else No_quantifier
              | [] => No_quantifier
              end
        end
      else No_quantifier
  end.

(** Anchors cannot be repeated. *)
Definition repeatable (r : regex) : bool :=
  match r with
  | At_beginning _ | At_end _ | At_beginning_string | At_end_string
  | Boundary _ => false
  | _ => true
  end.

(** The quantifier after an atom, if any, with its lazy mark; a second
    quantifier is an error, the possessive mark is outside the subset. *)
Definition parse_quantifier (r : regex) (s : list ascii)
  : option (regex * list ascii) :=
  match read_quantifier s with
  | No_quantifier => Some (r, s)
  | Bad_quantifier => None
  | Quantifier min max s1 =>
      if negb (repeatable r) then None
      else
        let '(greedy, s2) :=
          match s1 with
          | q :: s1' => if is_char q 63 then (false, s1') else (true, s1)
          | [] => (true, s1)
          end in
        match s2 with
        | q :: _ => if greedy && is_char q 43 then None
                    else
                      match read_quantifier s2 with
                      | No_quantifier => Some (Repeat greedy min max r, s2)
                      | _ => None
                      end
        | [] => Some (Repeat greedy min max r, s2)
        end
  end.

Definition flag_letter (c : ascii) (f : flags) (on : bool) : option flags :=
  if is_char c 105 then
    Some {| ignorecase := on; multiline := multiline f; dotall := dotall f |}
  else if is_char c 109 then
    Some {| ignorecase := ignorecase f; multiline := on; dotall := dotall f |}
  else if is_char c 115 then
    Some {| ignorecase := ignorecase f; multiline := multiline f; dotall := on |}
  else None.

Definition is_flag (c : ascii) : bool :=
  is_char c 105 || is_char c 109 || is_char c 115.

(** The letters of an inline flag group: the flags with the letters
    applied, the letters seen, and the rest from the character that ends
    the letters. *)
Fixpoint flag_letters (s : list ascii) (f : flags) (on : bool)
    (seen : list ascii) : option (flags * list ascii * list ascii) :=
  match s with
  | c :: s1 =>
      if is_flag c then
        f' ← flag_letter c f on; flag_letters s1 f' on (c :: seen)
      else Some (f, seen, s)
  | [] => Some (f, seen, s)
  end.

Definition mentions (seen : list ascii) (c : ascii) : bool :=
  existsb (fun c' => (code c =? code c')%nat) seen.

(** What follows [(?] when it starts with a flag letter or a minus: the
    new flags, whether the group is closed at once (flags for the whole
    pattern) or a scoped group follows, and the rest. *)
Definition parse_flags (s : list ascii) (f : flags)
  : option (flags * bool * list ascii) :=
  '(f1, added, s1) ← flag_letters s f true [];
  match s1 with
  | c :: s2 =>
      if is_char c 41 then
        match added with [] => None | _ => Some (f1, true, s2) end
      else if is_char c 58 then
        match added with [] => None | _ => Some (f1, false, s2) end
      else if is_char c 45 then
        '(f2, removed, s3) ← flag_letters s2 f1 false [];
        match removed, s3 with
        | _ :: _, e :: s4 =>
            if is_char e 58 && negb (existsb (mentions added) removed)
            then Some (f2, false, s4) else None
        | _, _ => None
        end
      else None
  | [] => None
  end.

Definition name_start (c : ascii) : bool :=
  in_range 65 90 c || in_range 97 122 c || is_char c 95.

(** A group name up to the closing angle bracket: an identifier. *)
Fixpoint group_name (s : list ascii) (name : list ascii)
  : option (string * list ascii) :=
  match s with
  | c :: s1 =>
      if is_char c 62 then
        match name with
        | [] => None
        | _ => Some (string_of_list_ascii (reverse name), s1)
        end
      else if match name with
              | [] => name_start c
              | _ => in_category Word c
              end
      then group_name s1 (c :: name)
      else None
  | [] => None
  end.

(** The groups opened so far: their number and their names. *)
Definition groups : Type := nat * list string.

Definition closes (s : list ascii) : option (list ascii) :=
  match s with
  | c :: s1 => if is_char c 41 then Some s1 else None
  | [] => None
  end.

(** Alternatives, sequences and atoms.  Groups are numbered by their
    opening parenthesis. *)
Fixpoint parse_alt (fuel : nat) (f : flags) (s : list ascii) (g : groups)
  : option (regex * list ascii * groups) :=
  match fuel with
  | O => None
  | S fuel =>
      '(r, s1, g1) ← parse_seq fuel f s g;
      match s1 with
      | c :: s2 =>
          if is_char c 124 then
            '(r2, s3, g3) ← parse_alt fuel f s2 g1;
            Some (Branch r r2, s3, g3)
          else Some (r, s1, g1)
      | [] => Some (r, s1, g1)
      end
  end
with parse_seq (fuel : nat) (f : flags) (s : list ascii) (g : groups)
  : option (regex * list ascii * groups) :=
  match fuel with
  | O => None
  | S fuel =>
      match s with
      | [] => Some (Empty, s, g)
      | c :: _ =>
          if is_char c 124 || is_char c 41 then Some (Empty, s, g)
          else
            '(a, s1, g1) ← parse_atom fuel f s g;
            '(q, s2) ← parse_quantifier a s1;
            '(rest, s3, g3) ← parse_seq fuel f s2 g1;
            Some (Concat q rest, s3, g3)
      end
  end
with parse_atom (fuel : nat) (f : flags) (s : list ascii) (g : groups)
  : option (regex * list ascii * groups) :=
  match fuel with
  | O => None
  | S fuel =>
      match s with
      | [] => None
      | c :: s1 =>
          if is_char c 40 then
            match s1 with
            | q :: s2 =>
                if is_char q 63 then
                  match s2 with
                  | k :: s3 =>
                      if is_char k 58 then
                        '(r, s4, g4) ← parse_alt fuel f s3 g;
                        s5 ← closes s4; Some (r, s5, g4)
                      else if is_char k 61 || is_char k 33 then
                        '(r, s4, g4) ← parse_alt fuel f s3 g;
                        s5 ← closes s4;
                        Some (Assert (is_char k 33) r, s5, g4)
                      else if is_char k 80 then
                        match s3 with
                        | a :: s4 =>
                            if is_char a 60 then
                              '(name, s5) ← group_name s4 [];
                              if bool_decide (name ∈ g.2) then None
                              else
                                '(r, s6, g6) ←
                                  parse_alt fuel f s5 (S g.1, name :: g.2);
                                s7 ← closes s6;
                                Some (Group g.1 r, s7, g6)
                            else None
                        | [] => None
                        end
                      else if is_flag k || is_char k 45 then
                        match parse_flags s2 f with
                        | Some (f', false, s4) =>
                            '(r, s5, g5) ← parse_alt fuel f' s4 g;
                            s6 ← closes s5; Some (r, s6, g5)
                        | _ => None
                        end
                      else None
                  | [] => None
                  end
                else
                  '(r, s4, g4) ← parse_alt fuel f s1 (S g.1, g.2);
                  s5 ← closes s4; Some (Group g.1 r, s5, g4)
            | [] => None
            end
          else if is_char c 91 then
            match s1 with
            | n :: s2 =>
                if is_char n 94 then
                  '(items, s3) ← parse_set (S (length s2)) false s2;
                  Some (In_set (ignorecase f) true items, s3, g)
                else
                  '(items, s3) ← parse_set (S (length s1)) false s1;
                  Some (In_set (ignorecase f) false items, s3, g)
            | [] => None
            end
          else if is_char c 92 then
            match s1 with
            | e :: s2 =>
                if is_char e 65 then Some (At_beginning_string, s2, g)
                else if is_char e 90 then Some (At_end_string, s2, g)
                else if is_char e 98 then Some (Boundary false, s2, g)
                else if is_char e 66 then Some (Boundary true, s2, g)
                else
                  '(it, s3) ← common_escape s1;
                  Some (match it with
                        | Item_literal ch => Literal (ignorecase f) ch
                        | _ => In_set (ignorecase f) false [it]
                        end, s3, g)
            | [] => None
            end
          else if is_char c 46 then Some (Any (dotall f), s1, g)
          else if is_char c 94 then Some (At_beginning (multiline f), s1, g)
          else if is_char c 36 then Some (At_end (multiline f), s1, g)
          else if is_char c 42 || is_char c 43 || is_char c 63 then None
          else if is_char c 123 then
            match read_quantifier s with
            | No_quantifier => Some (Literal (ignorecase f) c, s1, g)
            | _ => None
            end
          else Some (Literal (ignorecase f) c, s1, g)
      end
  end.

(** The inline flag groups at the start of the pattern. *)
Fixpoint global_flags (fuel : nat) (f : flags) (s : list ascii)
  : flags * list ascii :=
  match fuel with
  | O => (f, s)
  | S fuel =>
      match s with
      | p :: q :: k :: s1 =>
          if is_char p 40 && is_char q 63 && is_flag k then
            match parse_flags (k :: s1) f with
            | Some (f', true, s2) => global_flags fuel f' s2
            | _ => (f, s)
            end
          else (f, s)
      | _ => (f, s)
      end
  end.

(** [re.compile]: the parsed pattern with its number of capturing groups
    ([Pattern.groups]); [None] where Python raises [re.error] and on
    syntax outside the subset. *)
Definition compile (pattern : string) : option (regex * nat) :=
  let s := list_ascii_of_string pattern in
  let '(f, s1) := global_flags (length s) no_flags s in
  match parse_alt (4 * length s1 + 4) f s1 (0, []) with
  | Some (r, [], g) => Some (r, g.1)
  | _ => None
  end.

(** *** Matching *)

Definition captures := list (option string).

(** The text consumed between the input [s] and its suffix [s']. *)
Definition consumed (s s' : list ascii) : string :=
  string_of_list_ascii (take (length s - length s') s).

(** The character before the input [s] in the subject. *)
Definition previous (subject s : list ascii) : option ascii :=
  match length subject - length s with
  | O => None
  | S p => subject !! p
  end.

Definition is_word (c : option ascii) : bool :=
  match c with
  | Some c => in_category Word c
  | None => false
  end.

Definition is_newline (c : option ascii) : bool :=
  match c with
  | Some c => is_char c 10
  | None => false
  end.

(** Backtracking matcher in continuation-passing style: [k] receives the
    rest of the input and the groups set so far; alternatives are tried in
    order.  A repetition first makes its [min] iterations; a greedy one then
    takes further iterations before it tries what follows, a lazy one tries
    what follows first; a further iteration is not entered where the
    iteration before it started (and so consumed nothing).  [subject] is
    the whole subject. *)
Fixpoint rmatch (subject : list ascii) (r : regex) (s : list ascii)
    (caps : captures) (k : list ascii → captures → option captures)
  : option captures :=
  match r with
  | Empty => k s caps
  | Literal ignore c =>
      match s with
      | c' :: s' => if same_char ignore c c' then k s' caps else None
      | [] => None
      end
  | Any dotall =>
      match s with
      | c' :: s' => if is_char c' 10 && negb dotall then None else k s' caps
      | [] => None
      end
  | In_set ignore negate items =>
      match s with
      | c' :: s' => if in_set ignore negate items c' then k s' caps else None
      | [] => None
      end
  | At_beginning multiline =>
      match previous subject s with
      | None => k s caps
      | Some c' => if multiline && is_char c' 10 then k s caps else None
      end
  | At_end multiline =>
      match s with
      | [] => k s caps
      | c' :: s' =>
          if is_char c' 10 && (multiline || bool_decide (s' = []))
          then k s caps else None
      end
  | At_beginning_string =>
      match previous subject s with
      | None => k s caps
      | Some _ => None
      end
  | At_end_string =>
      match s with
      | [] => k s caps
      | _ => None
      end
  | Boundary negate =>
      match subject with
      | [] => None
      | _ =>
          if xorb negate
               (xorb (is_word (previous subject s)) (is_word (head s)))
          then k s caps else None
      end
  | Concat r1 r2 =>
      rmatch subject r1 s caps (fun s' caps' => rmatch subject r2 s' caps' k)
  | Branch r1 r2 =>
      match rmatch subject r1 s caps k with
      | Some res => Some res
      | None => rmatch subject r2 s caps k
      end
  | Repeat greedy min max r1 =>
      (fix iterate (fuel count : nat) (s : list ascii) (caps : captures)
           (last : option nat) {struct fuel} : option captures :=
         match fuel with
         | O => None
         | S fuel =>
             if (count <? min)%nat then
               rmatch subject r1 s caps
                 (fun s' caps' => iterate fuel (S count) s' caps' last)
             else
               let more :=
                 match max with
                 | Some m => (count <? m)%nat
                 | None => true
                 end && negb (bool_decide (last = Some (length s))) in
               if greedy then
                 if more then
                   match rmatch subject r1 s caps
                           (fun s' caps' =>
                              iterate fuel (S count) s' caps'
                                (Some (length s))) with
                   | Some res => Some res
                   | None => k s caps
                   end
                 else k s caps
               else
                 match k s caps with
                 | Some res => Some res
                 | None =>
                     if more then
                       rmatch subject r1 s caps
                         (fun s' caps' =>
                            iterate fuel (S count) s' caps'
                              (Some (length s)))
                     else None
                 end
         end) (min + length s + 2) 0 s caps None
  | Group i r1 =>
      rmatch subject r1 s caps
        (fun s' caps' => k s' (<[i := Some (consumed s s')]> caps'))
  | Assert negate r1 =>
      match rmatch subject r1 s caps (fun _ caps' => Some caps') with
      | Some caps' => if negate then None else k s caps'
      | None => if negate then k s caps else None
      end
  end.

(** The leftmost start position at which the pattern matches. *)
Fixpoint scan (subject : list ascii) (r : regex) (n : nat) (s : list ascii)
  : option captures :=
  match rmatch subject r s (replicate n None) (fun _ caps => Some caps) with
  | Some caps => Some caps
  | None =>
      match s with
      | [] => None
      | _ :: s' => scan subject r n s'
      end
  end.

(** What [re.search(pattern, message)] does: raise [re.error], return
    [None], or return a match whose [groups()] is the given tuple. *)
Inductive search_result :=
| Error
| No_match
| Match (groups : list (option string)).

Definition search (pattern message : string) : search_result :=
  match compile pattern with
  | None => Error
  | Some (r, n) =>
      let s := list_ascii_of_string message in
      match scan s r n s with
      | None => No_match
      | Some caps => Match caps
      end
  end.

End Re.

(** ** An instance of [float(str)]

    Python's grammar for the argument of [float]: surrounding whitespace,
    an optional sign, then [inf], [infinity] or [nan] in any letter case,
    or a decimal number with an optional exponent, where single
    underscores may separate digits.  The value is the binary64 number
    nearest to the decimal one. *)
Module PyFloat.

Definition is_space (c : ascii) : bool := Re.in_category Re.Space c.
Definition is_digit (c : ascii) : bool := Re.in_category Re.Digit c.
Definition digit (c : ascii) : Z := Z.of_nat (Re.code c) - 48.

Definition lower (c : ascii) : ascii :=
  if Re.in_range 65 90 c then ascii_of_nat (Re.code c + 32) else c.

Fixpoint lstrip (s : list ascii) : list ascii :=
  match s with
  | c :: s1 => if is_space c then lstrip s1 else s
  | [] => []
  end.

Definition strip (s : list ascii) : list ascii :=
  reverse (lstrip (reverse (lstrip s))).

(** The digits after the first digit of a digit part: [m] is the number
    read so far and [n] counts the digits. *)
Fixpoint digitpart_rest (s : list ascii) (m : Z) (n : nat)
  : Z * nat * list ascii :=
  match s with
  | c :: s1 =>
      if is_digit c then digitpart_rest s1 (10 * m + digit c)%Z (S n)
      else if Re.is_char c 95 then
        match s1 with
        | d :: s2 =>
            if is_digit d then digitpart_rest s2 (10 * m + digit d)%Z (S n)
            else (m, n, s)
        | [] => (m, n, s)
        end
      else (m, n, s)
  | [] => (m, n, s)
  end.

Definition digitpart (s : list ascii) (m : Z) : option (Z * nat * list ascii) :=
  match s with
  | c :: s1 =>
      if is_digit c then Some (digitpart_rest s1 (10 * m + digit c)%Z 1)
      else None
  | [] => None
  end.

(** [number]: all the digits as one integer, and how many of them follow
    the point. *)
Definition number (s : list ascii) : option (Z * nat * list ascii) :=
  match digitpart s 0 with
  | Some (m, _, s1) =>
      match s1 with
      | c :: s2 =>
          if Re.is_char c 46 then
            match digitpart s2 m with
            | Some res => Some res
            | None => Some (m, O, s2)
            end
          else Some (m, O, s1)
      | [] => Some (m, O, s1)
      end
  | None =>
      match s with
      | c :: s2 => if Re.is_char c 46 then digitpart s2 0 else None
      | [] => None
      end
  end.

Definition exponent (s : list ascii) : option (Z * list ascii) :=
  match s with
  | [] => Some (0%Z, s)
  | c :: s1 =>
      if Re.is_char (lower c) 101 then
        match s1 with
        | g :: s2 =>
            if Re.is_char g 43 then
              '(e, _, s3) ← digitpart s2 0; Some (e, s3)
            else if Re.is_char g 45 then
              '(e, _, s3) ← digitpart s2 0; Some ((- e)%Z, s3)
            else '(e, _, s3) ← digitpart s1 0; Some (e, s3)
        | [] => None
        end
      else Some (0%Z, s)
  end.

(** The binary64 number nearest to [m * 10 ^ e10], with the given sign. *)
Definition decimal (negative : bool) (m e10 : Z) : PrimFloat.float :=
  match m with
  | Z.pos p =>
      SF2Prim
        (if (0 <=? e10)%Z
         then SFdiv prec emax
                (S754_finite negative (p * Z.to_pos (10 ^ e10)) 0)
                (S754_finite false 1 0)
         else SFdiv prec emax
                (S754_finite negative p 0)
                (S754_finite false (Z.to_pos (10 ^ (- e10))) 0))
  | _ => if negative then PrimFloat.neg_zero else PrimFloat.zero
  end.

Definition unsigned (negative : bool) (s : list ascii)
  : option PrimFloat.float :=
  let word := string_of_list_ascii (lower <$> s) in
  if decide (word = "inf" ∨ word = "infinity") then
    Some (if negative then PrimFloat.neg_infinity else PrimFloat.infinity)
  else if decide (word = "nan") then Some PrimFloat.nan
  else
    '(m, nfrac, s1) ← number s;
    '(e, s2) ← exponent s1;
    match s2 with
    | [] => Some (decimal negative m (e - Z.of_nat nfrac))
    | _ => None
    end.

(** [float(x)] for a string [x]: [None] where Python raises [ValueError]. *)
Definition float (x : string) : option PrimFloat.float :=
  match strip (list_ascii_of_string x) with
  | c :: s1 =>
      if Re.is_char c 43 then unsigned false s1
      else if Re.is_char c 45 then unsigned true s1
      else unsigned false (c :: s1)
  | [] => None
  end.

End PyFloat.

(** ** Exceptions and results *)

Inductive exn :=
| StopIteration
| ValueError
| KeyError (key : string)
| re_error
| EmptyDataError
| OtherError (name : string).

(** The result of a call that has no effect on the processor. *)
Inductive result (A : Type) :=
| Returns (a : A)
| Raises (e : exn).
Arguments Returns {A} a.
Arguments Raises {A} e.

(** ** Data model *)

(** One row of the loaded table: the columns the processor reads. *)
Record RawRecord := {
  Weather_station_ID : string;
  Message : string
}.

(** A row once the columns [Measurement] and [Value] exist.  [Measurement]
    is an object column that holds a name or [None]; [Value] is a float64
    column, in which a missing value is NaN. *)
Record AnnotatedRecord := {
  raw : RawRecord;
  Measurement : option string;
  Value : float
}.

(** A DataFrame either lacks the two derived columns or has both. *)
Inductive DataFrame :=
| Raw_frame (rows : list RawRecord)
| Annotated_frame (rows : list AnnotatedRecord).

Definition raw_rows (df : DataFrame) : list RawRecord :=
  match df with
  | Raw_frame rows => rows
  | Annotated_frame rows => raw <$> rows
  end.

(** [df['Message']] *)
Definition Message_column (df : DataFrame) : list string :=
  Message <$> raw_rows df.

(** A float64 column built from floats and [None]s. *)
Definition to_float64 (v : option float) : float := default nan v.

(** [df['Measurement'], df['Value'] = ms, vs] *)
Definition set_Measurement_Value (df : DataFrame)
    (ms : list (option string)) (vs : list (option float)) : DataFrame :=
  Annotated_frame
    (zip_with (fun r mv => {| raw := r; Measurement := mv.1;
                              Value := to_float64 mv.2 |})
       (raw_rows df) (zip ms vs)).

(** The wide table [unstack] returns: a row per station, a column per
    measurement, NaN where a station has no value for a measurement. *)
Record SummaryTable := {
  index : list string;
  columns : list string;
  values : list (list float)
}.

Definition position (x : string) (l : list string) : option nat :=
  fst <$> list_find (x =.) l.

(** [t.loc[station, kind]]: [None] where a label is missing. *)
Definition cell (t : SummaryTable) (station kind : string) : option float :=
  i ← position station (index t);
  j ← position kind (columns t);
  r ← values t !! i;
  r !! j.

(** [config_params]: a dict in which either key may be missing. *)
Record config := {
  weather_csv_path : option string;
  regex_patterns : option (list (string * string))
}.

(** The attributes of a [WeatherDataProcessor]; [patterns] keeps the
    insertion order of the dict. *)
Record WeatherDataProcessor := {
  weather_station_data : string;
  patterns : list (string * string);
  weather_df : option DataFrame
}.

Definition set_weather_df (self : WeatherDataProcessor) (df : DataFrame)
  : WeatherDataProcessor :=
  {| weather_station_data := weather_station_data self;
     patterns := patterns self;
     weather_df := Some df |}.

(** The outcome of a method call, with the state the object is left in. *)
Inductive outcome (A : Type) :=
| Return (a : A) (self : WeatherDataProcessor)
| Raise (e : exn) (self : WeatherDataProcessor).
Arguments Return {A} a self.
Arguments Raise {A} e self.

Definition method (A : Type) : Type := WeatherDataProcessor → outcome A.

#[export] Instance method_ret : MRet method :=
  fun A a self => Return a self.

(** Sequencing: an exception ends the sequence. *)
#[export] Instance method_bind : MBind method :=
  fun A B f m self =>
    match m self with
    | Return a self' => f a self'
    | Raise e self' => Raise e self'
    end.

(** The library functions the code calls. *)
Class Library := {
  (** [re.search(pattern, message)] *)
  re_search : string → string → Re.search_result;
  (** [float(x)] for a string [x]; [None] is [ValueError] *)
  float_of_str : string → option float;
  (** [pd.read_csv(URL)] *)
  read_csv : string → result DataFrame;
  (** [pd.read_sql_query(text(sql_query), connection)] on a connection of
      the engine, named by its path *)
  read_sql_query : string → string → result DataFrame
}.

(** ** data_ingestion.py *)

(** [df.empty] *)
Definition empty (df : DataFrame) : bool :=
  match raw_rows df with
  | [] => true
  | _ => false
  end.

Definition query_data `{Library} (engine sql_query : string)
  : result DataFrame :=
  match read_sql_query engine sql_query with
  | Returns df => if empty df then Raises ValueError else Returns df
  | Raises ValueError => Raises ValueError
  | Raises e => Raises e
  end.

Definition read_from_web_CSV `{Library} (URL : string) : result DataFrame :=
  match read_csv URL with
  | Returns df => Returns df
  | Raises EmptyDataError => Raises EmptyDataError
  | Raises e => Raises e
  end.

(** ** weather_data_processor.py *)

Definition __init__ (config_params : config) : result WeatherDataProcessor :=
  match weather_csv_path config_params with
  | None => Raises (KeyError "weather_csv_path")
  | Some path =>
      match regex_patterns config_params with
      | None => Raises (KeyError "regex_patterns")
      | Some regex =>
          Returns {| weather_station_data := path;
                     patterns := regex;
                     weather_df := None |}
      end
  end.

Definition weather_station_mapping `{Library} : method unit :=
  fun self =>
    match read_from_web_CSV (weather_station_data self) with
    | Returns df => Return () (set_weather_df self df)
    | Raises e => Raise e self
    end.

(** [next(x for x in groups if x is not None)] *)
Fixpoint next_not_None (groups : list (option string)) : result string :=
  match groups with
  | [] => Raises StopIteration
  | Some x :: _ => Returns x
  | None :: rest => next_not_None rest
  end.

(** The loop of [extract_measurement] over [self.patterns.items()]. *)
Fixpoint extract_from `{Library} (items : list (string * string))
    (message : string) : result (option string * option float) :=
  match items with
  | [] => Returns (None, None)
  | (key, pattern) :: rest =>
      match re_search pattern message with
      | Re.Error => Raises re_error
      | Re.No_match => extract_from rest message
      | Re.Match groups =>
          match next_not_None groups with
          | Raises e => Raises e
          | Returns x =>
              match float_of_str x with
              | None => Raises ValueError
              | Some v => Returns (Some key, Some v)
              end
          end
      end
  end.

Definition extract_measurement `{Library} (self : WeatherDataProcessor)
    (message : string) : result (option string * option float) :=
  extract_from (patterns self) message.

(** [Series.apply(f)]: [f] on every element in order; the first exception
    ends the call. *)
Fixpoint apply {A B} (f : A → result B) (series : list A) : result (list B) :=
  match series with
  | [] => Returns []
  | x :: rest =>
      match f x with
      | Raises e => Raises e
      | Returns y =>
          match apply f rest with
          | Raises e => Raises e
          | Returns ys => Returns (y :: ys)
          end
      end
  end.

(** The assignment of [zip] of the unpacked pairs to two targets: [zip]
    applied to the pairs as separate arguments yields the tuple
    of first components and the tuple of second components, and yields
    nothing when there is no pair, in which case the unpacking raises
    [ValueError]. *)
Definition unpack_zip_star {A B} (pairs : list (A * B))
  : result (list A * list B) :=
  match pairs with
  | [] => Raises ValueError
  | _ => Returns (pairs.*1, pairs.*2)
  end.

Definition process_messages `{Library} : method (option DataFrame) :=
  fun self =>
    match weather_df self with
    | Some df =>
        match apply (extract_measurement self) (Message_column df) with
        | Raises e => Raise e self
        | Returns extracted =>
            match unpack_zip_star extracted with
            | Raises e => Raise e self
            | Returns (ms, vs) =>
                let df' := set_Measurement_Value df ms vs in
                Return (Some df') (set_weather_df self df')
            end
        end
    | None => Return None self
    end.

Definition count (n : nat) : float := of_uint63 (Uint63.of_Z (Z.of_nat n)).

(** What pandas keeps for one group while [mean()] passes over the rows:
    the number of values seen, their running sum, and the compensation of
    the sum for the low-order bits lost so far. *)
Record group_state := {
  nobs : nat;
  sumx : float;
  compensation : float
}.

Definition no_value : group_state :=
  {| nobs := 0; sumx := 0; compensation := 0 |}.

(** One value of a group: a NaN is left out; any other value is added
    to the running sum by compensated summation, and a compensation that is
    NaN (after an infinite value) is set back to zero. *)
Definition add_value (g : group_state) (val : float) : group_state :=
  if PrimFloat.is_nan val then g
  else
    let y := (val - compensation g)%float in
    let t := (sumx g + y)%float in
    let c := (t - sumx g - y)%float in
    {| nobs := S (nobs g);
       sumx := t;
       compensation := if PrimFloat.is_nan c then 0%float else c |}.

(** The mean of a group once all rows are seen; NaN when the group has no
    value. *)
Definition group_result (g : group_state) : float :=
  if (nobs g =? 0)%nat then nan else (sumx g / count (nobs g))%float.

(** The pass of [mean()] over the rows: each row updates the state of its
    group; a row whose [Measurement] is [None] belongs to no group. *)
Definition group_states (rows : list AnnotatedRecord)
  : gmap (string * string) group_state :=
  foldl (fun groups r =>
           match Measurement r with
           | None => groups
           | Some kind =>
               let key := (Weather_station_ID (raw r), kind) in
               <[key := add_value (default no_value (groups !! key))
                          (Value r)]> groups
           end) ∅ rows.

(** [groupby(['Weather_station_ID', 'Measurement'])['Value'].mean()] *)
Definition groupby_mean (rows : list AnnotatedRecord)
  : gmap (string * string) float :=
  group_result <$> group_states rows.

Definition sorted_labels (labels : gset string) : list string :=
  merge_sort (fun a b => String.leb a b) (elements labels).

(** [unstack()] of a Series indexed by (station, kind). *)
Definition unstack (means : gmap (string * string) float) : SummaryTable :=
  let stations := sorted_labels (set_map fst (dom means)) in
  let kinds := sorted_labels (set_map snd (dom means)) in
  {| index := stations;
     columns := kinds;
     values := (fun s => (fun k => default nan (means !! (s, k))) <$> kinds)
               <$> stations |}.

Definition calculate_means : method (option SummaryTable) :=
  fun self =>
    match weather_df self with
    | Some (Annotated_frame rows) =>
        Return (Some (unstack (groupby_mean rows))) self
    | Some (Raw_frame rows) =>
        (* No column is named Measurement.  A list of as many keys as the
           table has rows, not all of them column names, is taken as one
           array of group labels: the grouping succeeds and the selection
           of the column Value fails.  Otherwise the key is looked up as a
           column name. *)
        if (length rows =? 2)%nat
        then Raise (KeyError "Column not found: Value") self
        else Raise (KeyError "Measurement") self
    | None => Return None self
    end.

Definition process `{Library} : method unit :=
  weather_station_mapping ;; process_messages ;; mret ().

(** ** Spec-side definitions *)

(** The values of the rows of station [s] whose measurement is [k]. *)
Definition group_values (rows : list AnnotatedRecord) (s k : string)
  : list float :=
  Value <$> filter (fun r => Weather_station_ID (raw r) = s
                             ∧ Measurement r = Some k) rows.

(** The stations and the measurement names of the rows that have a
    measurement. *)
Definition grouped_stations (rows : list AnnotatedRecord) : list string :=
  (fun r => Weather_station_ID (raw r))
  <$> filter (fun r => is_Some (Measurement r)) rows.

Definition grouped_kinds (rows : list AnnotatedRecord) : list string :=
  omap Measurement rows.

(** The values of a group that are present, that is, not NaN. *)
Definition present_values (rows : list AnnotatedRecord) (s k : string)
  : list float :=
  List.filter (fun v => negb (PrimFloat.is_nan v)) (group_values rows s k).

(** The sum of the values in their order, kept as a stable running sum:
    [sum] is the sum so far and [c] the part of it lost to rounding, which
    is taken off the next value. *)
Fixpoint stable_sum (sum c : float) (xs : list float) : float :=
  match xs with
  | [] => sum
  | x :: xs =>
      let y := (x - c)%float in
      let t := (sum + y)%float in
      let c' := (t - sum - y)%float in
      stable_sum t (if PrimFloat.is_nan c' then 0%float else c') xs
  end.

(** The sum of the values divided by their number. *)
Definition arithmetic_mean (xs : list float) : float :=
  (stable_sum 0 0 xs / count (length xs))%float.

(** The groups of the rows: the values of each station and measurement
    name, in row order. *)
Definition groupby (rows : list AnnotatedRecord)
  : gmap (string * string) (list float) :=
  foldl (fun groups r =>
           match Measurement r with
           | None => groups
           | Some kind =>
               let key := (Weather_station_ID (raw r), kind) in
               <[key := default [] (groups !! key) ++ [Value r]]> groups
           end) ∅ rows.

(** The mean of a group of values: the arithmetic mean of the values that
    are not NaN; NaN when there is none. *)
Definition mean (vs : list float) : float :=
  match List.filter (fun v => negb (PrimFloat.is_nan v)) vs with
  | [] => nan
  | xs => arithmetic_mean xs
  end.

(** The annotated record of a row: the extracted pair, or absent. *)
Definition annotate (r : RawRecord) (kv : option string * option float)
  : AnnotatedRecord :=
  {| raw := r; Measurement := kv.1; Value := to_float64 kv.2 |}.

(** The pattern of a registry item does not match the message. *)
Definition no_match `{Library} (message : string) (item : string * string)
  : Prop :=
  re_search item.2 message = Re.No_match.

(** [Pattern.groups] of a pattern that compiles. *)
Definition capturing_groups (pattern : string) : option nat :=
  snd <$> Re.compile pattern.

(** The batch processor followed by the aggregator. *)
Definition annotate_and_aggregate `{Library} : method (option SummaryTable) :=
  process_messages ;; calculate_means.

(** ** Concrete registries, messages and tables *)
Module Example.

Definition record (station message : string) : RawRecord :=
  {| Weather_station_ID := station; Message := message |}.

Definition measured (station kind : string) (v : float) : AnnotatedRecord :=
  {| raw := record station ""; Measurement := Some kind; Value := v |}.

(** The stations file, a file that has a header line and no row, and a
    file whose second row carries a malformed number. *)
Definition web (URL : string) : result DataFrame :=
  if decide (URL = "stations.csv") then
    Returns (Raw_frame [record "S1" "Temperature: 20C";
                        record "S1" "no data";
                        record "S1" "Temperature: 30.0";
                        record "S2" "Humidity: 10"])
  else if decide (URL = "header_only.csv") then Returns (Raw_frame [])
  else if decide (URL = "malformed.csv") then
    Returns (Raw_frame [record "S1" "Rain: 1.2.3 mm";
                        record "S1" "Rain: 4.5 mm"])
  else Raises (OtherError "HTTPError").

(** A database in which every query selects no row. *)
Definition database (engine sql_query : string) : result DataFrame :=
  Returns (Raw_frame []).

#[global] Instance python : Library :=
  {| re_search := Re.search;
     float_of_str := PyFloat.float;
     read_csv := web;
     read_sql_query := database |}.

Definition registry : list (string * string) :=
  [("hum", "Humidity:\s*(\d+\.?\d*)");
   ("temp", "Temperature:\s*(-?\d+\.?\d*)");
   ("number", "(\d+)")].

Definition processor : WeatherDataProcessor :=
  {| weather_station_data := "stations.csv";
     patterns := registry;
     weather_df := None |}.

(** A registry whose capture admits text that is not a number. *)
Definition rain_registry : list (string * string) :=
  [("rain", "Rain: ([\d.]+)")].

Definition rain_processor (rows : list RawRecord) : WeatherDataProcessor :=
  {| weather_station_data := "malformed.csv";
     patterns := rain_registry;
     weather_df := Some (Raw_frame rows) |}.

(** A registry whose first pattern has no capturing group and whose last
    pattern has two. *)
Definition groupless_registry : list (string * string) :=
  [("temp", "Temperature"); ("number", "(\d+)"); ("pair", "(\d+)\.(\d+)")].

Definition groupless_processor : WeatherDataProcessor :=
  {| weather_station_data := "stations.csv";
     patterns := groupless_registry;
     weather_df := None |}.

Definition groupless_config : config :=
  {| weather_csv_path := Some "stations.csv";
     regex_patterns := Some groupless_registry |}.

Definition header_only_processor : WeatherDataProcessor :=
  {| weather_station_data := "header_only.csv";
     patterns := registry;
     weather_df := None |}.

(** The stations file once loaded, and what the extractor returns for
    each of its rows. *)
Definition station_rows : list RawRecord :=
  [record "S1" "Temperature: 20C";
   record "S1" "no data";
   record "S1" "Temperature: 30.0";
   record "S2" "Humidity: 10"].

Definition loaded : WeatherDataProcessor :=
  set_weather_df processor (Raw_frame station_rows).

Definition extracted : list (option string * option float) :=
  [(Some "temp", Some 20%float);
   (None, None);
   (Some "temp", Some 30%float);
   (Some "hum", Some 10%float)].

Definition malformed : RawRecord := record "S1" "Rain: 1.2.3 mm".
Definition well_formed : RawRecord := record "S1" "Rain: 4.5 mm".

(** Two temperatures of station S1 and one of station S2. *)
Definition scenario : list AnnotatedRecord :=
  [measured "S1" "temp" 20; measured "S1" "temp" 30; measured "S2" "temp" 10].

End Example.

(** ** data_ingestion.py: the database engine *)

(** The SQLAlchemy calls of [create_db_engine]; an engine is named by the
    path it was created from. *)
Class SQLAlchemy := {
  (** [create_engine(db_path)] *)
  create_engine : string → result string;
  (** [with engine.connect() as conn: pass] *)
  connect : string → result unit
}.

(** The exceptions an [except ImportError] clause catches: ImportError and
    its built-in subclass. *)
Definition is_ImportError (e : exn) : bool :=
  match e with
  | OtherError name =>
      String.eqb name "ImportError" || String.eqb name "ModuleNotFoundError"
  | _ => false
  end.

(** The two handlers of [create_db_engine].  The first one executes
    [raise e] although only the second one binds [e]: the name is a local
    variable without a value there, and the statement raises
    UnboundLocalError. *)
Definition create_db_engine_except (e : exn) : result string :=
  if is_ImportError e then Raises (OtherError "UnboundLocalError")
  else Raises e.

Definition create_db_engine `{SQLAlchemy} (db_path : string) : result string :=
  match create_engine db_path with
  | Raises e => create_db_engine_except e
  | Returns engine =>
      match connect engine with
      | Raises e => create_db_engine_except e
      | Returns _ => Returns engine
      end
  end.

(** ** weather_data_processor.py: logging *)

Inductive Handler := StreamHandler (fmt : string).

(** The attributes of a [logging.Logger] the processor touches. *)
Record Logger := {
  propagate : bool;
  disabled : bool;
  level : nat;
  handlers : list Handler
}.

Definition NOTSET : nat := 0.
Definition DEBUG : nat := 10.
Definition INFO : nat := 20.

(** The logger [logging.getLogger] creates for a name not seen before.
    Every processor gets the logger of the same name, hence the same
    object. *)
Definition new_logger : Logger :=
  {| propagate := true; disabled := false; level := NOTSET; handlers := [] |}.

Definition upper_char (c : ascii) : ascii :=
  if Re.in_range 97 122 c then ascii_of_nat (Re.code c - 32) else c.

(** [str.upper()] on ASCII text. *)
Definition upper (s : string) : string :=
  string_of_list_ascii (upper_char <$> list_ascii_of_string s).

(** [setLevel(log_level)], then a handler unless the logger has one. *)
Definition configure (log_level : nat) (logger : Logger) : Logger :=
  let logger := {| propagate := propagate logger; disabled := disabled logger;
                   level := log_level; handlers := handlers logger |} in
  match handlers logger with
  | [] =>
      {| propagate := propagate logger; disabled := disabled logger;
         level := level logger;
         handlers :=
           handlers logger
           ++ [StreamHandler
                 "%(asctime)s - %(name)s - %(levelname)s - %(message)s"] |}
  | _ => logger
  end.

Definition initialize_logging (logging_level : string) (logger : Logger)
  : Logger :=
  let logger := {| propagate := false; disabled := disabled logger;
                   level := level logger; handlers := handlers logger |} in
  if String.eqb (upper logging_level) "DEBUG" then configure DEBUG logger
  else if String.eqb (upper logging_level) "INFO" then configure INFO logger
  else if String.eqb (upper logging_level) "NONE" then
    {| propagate := propagate logger; disabled := true;
       level := level logger; handlers := handlers logger |}
  else configure INFO logger.

(** The logger after processors were constructed with the given logging
    levels, one after the other. *)
Definition constructed (logging_levels : list string) (logger : Logger)
  : Logger :=
  foldl (fun lg logging_level => initialize_logging logging_level lg)
    logger logging_levels.

(** [Logger.getEffectiveLevel()], where [inherited] is the level found at
    the ancestors, and [Logger.isEnabledFor(lvl)]. *)
Definition getEffectiveLevel (inherited : nat) (logger : Logger) : nat :=
  if (level logger =? NOTSET)%nat then inherited else level logger.

Definition isEnabledFor (inherited : nat) (logger : Logger) (lvl : nat) : bool :=
  negb (disabled logger) && (getEffectiveLevel inherited logger <=? lvl)%nat.

(** ** data_validation.py: the crop types *)

Definition valid_crop_types : list string :=
  ["cassava"; "wheat"; "tea"; "potato"; "banana"; "coffee"; "maize"; "rice";
   "cassava "; "wheat "; "tea "].

(** [str.strip()] on ASCII text. *)
Definition str_strip (s : string) : string :=
  string_of_list_ascii (PyFloat.strip (list_ascii_of_string s)).

(** The condition [test_crop_types_are_valid] asserts, for the column
    [field_df['Crop_type']]; [remove_dups] is [unique()]. *)
Definition test_crop_types_are_valid (Crop_type : list string) : bool :=
  forallb (fun crop => bool_decide (str_strip crop ∈ valid_crop_types))
    (remove_dups Crop_type).

(** The names among [valid_crop_types] that have no trailing space. *)
Definition crop_names : list string :=
  ["cassava"; "wheat"; "tea"; "potato"; "banana"; "coffee"; "maize"; "rice"].

(** ** More concrete inputs *)
Module Sample.

(** An engine whose driver is not installed, and engines that connect. *)
#[global] Instance sqlalchemy : SQLAlchemy :=
  {| create_engine db_path :=
       if String.eqb db_path "postgresql://farm"
       then Raises (OtherError "ModuleNotFoundError")
       else Returns db_path;
     connect engine := Returns () |}.

(** A database with one table that has a row and one that has none. *)
Definition tables (engine sql_query : string) : result DataFrame :=
  if String.eqb sql_query "SELECT * FROM weather"
  then Returns (Raw_frame [Example.record "S1" "Temperature: 20C"])
  else Returns (Raw_frame []).

Definition library : Library :=
  {| re_search := Re.search;
     float_of_str := PyFloat.float;
     read_csv := Example.web;
     read_sql_query := tables |}.

(** The stations table with measurements of an earlier run. *)
Definition stale : DataFrame :=
  Annotated_frame [Example.measured "S9" "wind" 1].


Definition unreachable_processor : WeatherDataProcessor :=
  {| weather_station_data := "missing.csv";
     patterns := Example.registry;
     weather_df := Some stale |}.

(** Rows with and without a measurement. *)
Definition mixed : list AnnotatedRecord :=
  [Example.measured "S1" "temp" 20;
   {| raw := Example.record "S1" "no data"; Measurement := None; Value := nan |};
   Example.measured "S2" "hum" 10;
   Example.measured "S1" "temp" 30].

(** The rows of [mixed] that have a measurement. *)
Definition measured_only : list AnnotatedRecord :=
  filter (fun r => is_Some (Measurement r)) mixed.

(** The stations file re-read into a processor that holds [stale]. *)
Definition reloading_processor : WeatherDataProcessor :=
  set_weather_df Example.processor stale.

(** The scenario of the aggregator, loaded. *)
Definition aggregated : WeatherDataProcessor :=
  set_weather_df Example.processor (Annotated_frame Example.scenario).

End Sample.

(** ** The extractor *)

Section Extractor.
Context `{Library}.

Lemma extract_from_skip before rest message :
  Forall (no_match message) before →
  extract_from (before ++ rest) message = extract_from rest message.
Proof.
  induction 1 as [|[key pattern] before Hx _ IH]; [done|].
  simpl. unfold no_match in Hx. simpl in Hx. by rewrite Hx.
Qed.

Lemma next_not_None_first n x rest :
  next_not_None (replicate n None ++ Some x :: rest) = Returns x.
Proof. induction n as [|n IH]; [done|]. exact IH. Qed.

Lemma next_not_None_exhausted groups :
  Forall (.= None) groups → next_not_None groups = Raises StopIteration.
Proof. induction 1 as [|g groups -> _ IH]; [done|]. exact IH. Qed.

(** C1: the first registered pattern that matches decides the result: its
    key, with the float of its first group that is not [None]; the
    patterns registered after it play no part, whatever they are. *)
Theorem extract_measurement_first_match self message before key pattern after
    n x rest v :
  patterns self = before ++ (key, pattern) :: after →
  Forall (no_match message) before →
  re_search pattern message = Re.Match (replicate n None ++ Some x :: rest) →
  float_of_str x = Some v →
  extract_measurement self message = Returns (Some key, Some v).
Proof.
  intros Hreg Hbefore Hmatch Hfloat. unfold extract_measurement.
  rewrite Hreg, extract_from_skip by done. simpl.
  by rewrite Hmatch, next_not_None_first, Hfloat.
Qed.

(** C5: when no registered pattern matches the message, the result is
    the pair (None, None), returned and not raised. *)
Theorem extract_measurement_no_match self message :
  Forall (no_match message) (patterns self) →
  extract_measurement self message = Returns (None, None).
Proof.
  intros Hnone. unfold extract_measurement.
  rewrite <- (app_nil_r (patterns self)). by rewrite extract_from_skip.
Qed.

(** C9: when the first pattern that matches has no group, or only groups
    that are [None], the call raises StopIteration; the later patterns are
    not tried. *)
Theorem extract_measurement_no_group self message before key pattern after
    groups :
  patterns self = before ++ (key, pattern) :: after →
  Forall (no_match message) before →
  re_search pattern message = Re.Match groups →
  Forall (.= None) groups →
  extract_measurement self message = Raises StopIteration.
Proof.
  intros Hreg Hbefore Hmatch Hgroups. unfold extract_measurement.
  rewrite Hreg, extract_from_skip by done. simpl.
  by rewrite Hmatch, next_not_None_exhausted.
Qed.

End Extractor.

Lemma extract_measurement_first_match_witness :
  extract_measurement Example.processor "Temperature: 23.5C"
  = Returns (Some "temp", Some 23.5%float).
Proof.
  apply (extract_measurement_first_match Example.processor
           "Temperature: 23.5C" [("hum", "Humidity:\s*(\d+\.?\d*)")]
           "temp" "Temperature:\s*(-?\d+\.?\d*)" [("number", "(\d+)")]
           0 "23.5" []).
  - reflexivity.
  - repeat constructor.
  - vm_compute. reflexivity.
  - vm_compute. reflexivity.
Defined.

Lemma extract_measurement_no_match_witness :
  extract_measurement Example.processor "" = Returns (None, None).
Proof.
  apply (extract_measurement_no_match Example.processor "").
  repeat constructor.
Defined.

Lemma extract_measurement_no_group_witness :
  extract_measurement Example.groupless_processor "Temperature: 23.5C"
  = Raises StopIteration.
Proof.
  apply (extract_measurement_no_group Example.groupless_processor
           "Temperature: 23.5C" [] "temp" "Temperature"
           [("number", "(\d+)"); ("pair", "(\d+)\.(\d+)")] []).
  - reflexivity.
  - constructor.
  - vm_compute. reflexivity.
  - constructor.
Defined.

(** ** Construction *)

(** C7, as the code has it: construction checks nothing about the
    patterns; whenever both keys are present it succeeds and keeps the
    registry as supplied, with no table loaded; the only exception it
    raises is the KeyError of a missing key. *)
Theorem init_stores_registry :
  (∀ path regex,
     __init__ {| weather_csv_path := Some path; regex_patterns := Some regex |}
     = Returns {| weather_station_data := path;
                  patterns := regex;
                  weather_df := None |})
  ∧ ∀ config_params e,
      __init__ config_params = Raises e →
      (e = KeyError "weather_csv_path" ∧ weather_csv_path config_params = None)
      ∨ (e = KeyError "regex_patterns" ∧ regex_patterns config_params = None).
Proof.
  split; [done|]. intros [[path|] [regex|]] e; unfold __init__; simpl;
    intros [= <-]; auto.
Qed.

(** C7 fails as stated: a registry with a pattern that has no capturing
    group and a pattern that has two is accepted by the constructor. *)
Lemma init_accepts_groupless_pattern :
  capturing_groups "Temperature" = Some 0
  ∧ capturing_groups "(\d+)\.(\d+)" = Some 2
  ∧ ("temp", "Temperature") ∈ Example.groupless_registry
  ∧ ("pair", "(\d+)\.(\d+)") ∈ Example.groupless_registry
  ∧ __init__ Example.groupless_config = Returns Example.groupless_processor.
Proof.
  split; [reflexivity|]. split; [reflexivity|].
  split; [constructor|]. split; [|reflexivity].
  do 2 constructor. constructor.
Qed.

(** ** The batch processor *)

Section Batch.
Context `{Library}.

Lemma apply_Forall2 {A B} (f : A → result B) xs ys :
  Forall2 (fun x y => f x = Returns y) xs ys → apply f xs = Returns ys.
Proof.
  induction 1 as [|x y xs ys Hx _ IH]; [done|].
  simpl. by rewrite Hx, IH.
Qed.

Lemma apply_Returns_Forall2 {A B} (f : A → result B) xs ys :
  apply f xs = Returns ys → Forall2 (fun x y => f x = Returns y) xs ys.
Proof.
  revert ys. induction xs as [|x xs IH]; intros ys; simpl.
  - intros [= <-]. constructor.
  - destruct (f x) as [y|e] eqn:Hx; [|done].
    destruct (apply f xs) as [ys'|e] eqn:Hxs; [|done].
    intros [= <-]. constructor; [done|]. by apply IH.
Qed.

Lemma apply_Raises {A B} (f : A → result B) xs x rest e :
  Forall (fun x' => ∃ y, f x' = Returns y) xs →
  f x = Raises e →
  apply f (xs ++ x :: rest) = Raises e.
Proof.
  intros Hxs Hx. induction Hxs as [|x' xs [y Hy] _ IH]; simpl.
  - by rewrite Hx.
  - by rewrite Hy, IH.
Qed.

Lemma raw_zip_with_annotate rows extracted :
  length rows = length extracted →
  raw <$> zip_with annotate rows extracted = rows.
Proof.
  revert extracted. induction rows as [|r rows IH]; intros [|kv extracted];
    simpl; try done.
  intros [= Hlen]. by rewrite IH.
Qed.

Lemma set_Measurement_Value_annotate df
    (extracted : list (option string * option float)) :
  set_Measurement_Value df (extracted.*1) (extracted.*2)
  = Annotated_frame (zip_with annotate (raw_rows df) extracted).
Proof. unfold set_Measurement_Value. by rewrite zip_fst_snd. Qed.

(** What [process_messages] does on a loaded table, by the result of
    [apply]. *)
Lemma process_messages_loaded self df :
  weather_df self = Some df →
  process_messages self =
    match apply (extract_measurement self) (Message_column df) with
    | Raises e => Raise e self
    | Returns [] => Raise ValueError self
    | Returns extracted =>
        let df' := Annotated_frame (zip_with annotate (raw_rows df) extracted) in
        Return (Some df') (set_weather_df self df')
    end.
Proof.
  intros Hdf. unfold process_messages. rewrite Hdf.
  destruct (apply _ _) as [[|kv extracted]|e]; [done| |done].
  unfold unpack_zip_star. by rewrite set_Measurement_Value_annotate.
Qed.

(** C4, as the code has it: on a table that has at least one row and on
    which every extraction returns, every row is emitted, in input order,
    with the pair the extractor returned for its message (absent included);
    the rows of the output are the rows of the input. *)
Theorem process_messages_annotates_every_row self df extracted :
  weather_df self = Some df →
  raw_rows df ≠ [] →
  Forall2 (fun r kv => extract_measurement self (Message r) = Returns kv)
    (raw_rows df) extracted →
  let rows' := zip_with annotate (raw_rows df) extracted in
  process_messages self
  = Return (Some (Annotated_frame rows'))
      (set_weather_df self (Annotated_frame rows'))
  ∧ raw <$> rows' = raw_rows df
  ∧ ∀ i r, raw_rows df !! i = Some r →
           ∃ kv, extract_measurement self (Message r) = Returns kv
                 ∧ rows' !! i = Some {| raw := r; Measurement := kv.1;
                                        Value := to_float64 kv.2 |}.
Proof.
  intros Hdf Hrows Hall rows'. split; [|split].
  - rewrite (process_messages_loaded self df Hdf).
    unfold Message_column.
    rewrite (apply_Forall2 _ _ extracted) by by apply Forall2_fmap_l.
    destruct extracted as [|kv extracted]; [|done].
    apply Forall2_nil_inv_r in Hall. done.
  - apply raw_zip_with_annotate. by eapply Forall2_length.
  - intros i r Hi.
    destruct (Forall2_lookup_l _ _ _ _ _ Hall Hi) as (kv & Hkv & Hr).
    exists kv. split; [done|].
    unfold rows'. by rewrite lookup_zip_with, Hi, Hkv.
Qed.

(** When the extraction of one row raises, and the extractions of the rows
    before it return, [process_messages] raises the same exception and
    leaves the processor as it was. *)
Lemma process_messages_raises self df earlier r later e :
  weather_df self = Some df →
  raw_rows df = earlier ++ r :: later →
  Forall (fun r' => ∃ kv, extract_measurement self (Message r') = Returns kv)
    earlier →
  extract_measurement self (Message r) = Raises e →
  process_messages self = Raise e self.
Proof.
  intros Hdf Hrows Hearlier Hr.
  rewrite (process_messages_loaded self df Hdf). unfold Message_column.
  rewrite Hrows, fmap_app, fmap_cons.
  rewrite (apply_Raises _ _ _ _ e); [done| |done].
  by apply Forall_fmap.
Qed.

Lemma extract_measurement_not_a_float self message before key pattern after
    n x rest :
  patterns self = before ++ (key, pattern) :: after →
  Forall (no_match message) before →
  re_search pattern message = Re.Match (replicate n None ++ Some x :: rest) →
  float_of_str x = None →
  extract_measurement self message = Raises ValueError.
Proof.
  intros Hreg Hbefore Hmatch Hfloat. unfold extract_measurement.
  rewrite Hreg, extract_from_skip by done. simpl.
  by rewrite Hmatch, next_not_None_first, Hfloat.
Qed.

(** C2, as the code has it: a pattern that matches with a capture that is
    not a number makes the extractor raise ValueError, which is not the
    no-match result; the batch processor does not catch it: the call
    raises ValueError, no row is annotated and the processor is left as it
    was. *)
Theorem process_messages_aborts_on_ValueError self df earlier r later
    before key pattern after n x rest :
  weather_df self = Some df →
  raw_rows df = earlier ++ r :: later →
  Forall (fun r' => ∃ kv, extract_measurement self (Message r') = Returns kv)
    earlier →
  patterns self = before ++ (key, pattern) :: after →
  Forall (no_match (Message r)) before →
  re_search pattern (Message r)
  = Re.Match (replicate n None ++ Some x :: rest) →
  float_of_str x = None →
  extract_measurement self (Message r) = Raises ValueError
  ∧ extract_measurement self (Message r) ≠ Returns (None, None)
  ∧ process_messages self = Raise ValueError self.
Proof.
  intros Hdf Hrows Hearlier Hreg Hbefore Hmatch Hfloat.
  assert (extract_measurement self (Message r) = Raises ValueError) as Hr
    by by eapply extract_measurement_not_a_float.
  split; [done|]. split; [by rewrite Hr|].
  by eapply process_messages_raises.
Qed.

(** C10: before a table is loaded, [process_messages] and
    [calculate_means] return [None] and leave the processor as it was;
    neither raises. *)
Theorem not_loaded_returns_None self :
  weather_df self = None →
  process_messages self = Return None self
  ∧ calculate_means self = Return None self.
Proof.
  intros Hdf. unfold process_messages, calculate_means. by rewrite Hdf.
Qed.

(** A table without rows makes [process] raise the ValueError of the
    failed unpacking, after the table has been stored. *)
Lemma process_no_rows self df :
  read_csv (weather_station_data self) = Returns df →
  raw_rows df = [] →
  process self = Raise ValueError (set_weather_df self df).
Proof.
  intros Hread Hrows. unfold process, weather_station_mapping.
  unfold mbind, method_bind, read_from_web_CSV. rewrite Hread.
  rewrite (process_messages_loaded _ df) by done.
  unfold Message_column. by rewrite Hrows.
Qed.

(** The database loader refuses a table without rows. *)
Lemma query_data_no_rows engine sql_query df :
  read_sql_query engine sql_query = Returns df →
  raw_rows df = [] →
  query_data engine sql_query = Raises ValueError.
Proof.
  intros Hread Hrows. unfold query_data, empty. by rewrite Hread, Hrows.
Qed.

(** The CSV loader returns whatever table [read_csv] returns, rows or not. *)
Lemma read_from_web_CSV_Returns URL df :
  read_csv URL = Returns df → read_from_web_CSV URL = Returns df.
Proof. intros Hread. unfold read_from_web_CSV. by rewrite Hread. Qed.

End Batch.

(** ** The aggregator *)

Lemma group_values_snoc rows r s k :
  group_values (rows ++ [r]) s k
  = group_values rows s k
    ++ (if decide (Weather_station_ID (raw r) = s ∧ Measurement r = Some k)
        then [Value r] else []).
Proof.
  unfold group_values. rewrite filter_app, fmap_app. f_equal.
  rewrite filter_cons, filter_nil. by case_decide.
Qed.

(** A key is in the grouping when some row has it, and its group holds the
    values of these rows in row order. *)
Lemma groupby_lookup rows s k :
  groupby rows !! (s, k)
  = match group_values rows s k with
    | [] => None
    | vs => Some vs
    end.
Proof.
  induction rows as [|r rows IH] using rev_ind; [done|].
  unfold groupby in *. rewrite foldl_snoc, group_values_snoc.
  destruct (Measurement r) as [kind|] eqn:Hkind.
  - destruct (decide ((Weather_station_ID (raw r), kind) = (s, k)))
      as [[= <- <-]|Hne].
    + rewrite lookup_insert_eq, IH, decide_True by done.
      by destruct (group_values rows _ _).
    + rewrite lookup_insert_ne, IH by done.
      rewrite decide_False, app_nil_r; [done|].
      intros [<- Hk]. congruence.
  - rewrite decide_False, app_nil_r; [done|].
    intros [_ Hk]. congruence.
Qed.

(** The state of a group after its values: the number of those that are
    not NaN and their stable sum. *)
Lemma foldl_add_value g vs :
  nobs (foldl add_value g vs)
  = nobs g + length (List.filter (fun v => negb (PrimFloat.is_nan v)) vs)
  ∧ sumx (foldl add_value g vs)
    = stable_sum (sumx g) (compensation g)
        (List.filter (fun v => negb (PrimFloat.is_nan v)) vs).
Proof.
  revert g. induction vs as [|v vs IH]; intros g; simpl.
  - split; [lia|done].
  - destruct (PrimFloat.is_nan v) eqn:Hv; simpl.
    + assert (add_value g v = g) as -> by (unfold add_value; by rewrite Hv).
      apply IH.
    + destruct (IH (add_value g v)) as [Hn Hs]. rewrite Hn, Hs.
      unfold add_value. rewrite Hv. simpl. split; [lia|done].
Qed.

Lemma group_result_mean vs :
  group_result (foldl add_value no_value vs) = mean vs.
Proof.
  unfold group_result, mean, arithmetic_mean.
  destruct (foldl_add_value no_value vs) as [-> ->]. simpl.
  by destruct (List.filter _ vs).
Qed.

Lemma group_states_snoc rows r :
  group_states (rows ++ [r])
  = match Measurement r with
    | None => group_states rows
    | Some kind =>
        <[(Weather_station_ID (raw r), kind) :=
            add_value
              (default no_value
                 (group_states rows !! (Weather_station_ID (raw r), kind)))
              (Value r)]> (group_states rows)
    end.
Proof. unfold group_states. by rewrite foldl_snoc. Qed.

Lemma groupby_snoc rows r :
  groupby (rows ++ [r])
  = match Measurement r with
    | None => groupby rows
    | Some kind =>
        <[(Weather_station_ID (raw r), kind) :=
            default [] (groupby rows !! (Weather_station_ID (raw r), kind))
            ++ [Value r]]> (groupby rows)
    end.
Proof. unfold groupby. by rewrite foldl_snoc. Qed.

(** The pass keeps, for each key, the state that the values of the key
    give, taken in row order. *)
Lemma group_states_lookup rows key :
  group_states rows !! key
  = foldl add_value no_value <$> groupby rows !! key.
Proof.
  induction rows as [|r rows IH] using rev_ind; [done|].
  rewrite group_states_snoc, groupby_snoc.
  destruct (Measurement r) as [kind|]; [|done].
  destruct (decide ((Weather_station_ID (raw r), kind) = key)) as [<-|Hne].
  - rewrite !lookup_insert_eq, IH.
    destruct (groupby rows !! _) as [vs|]; simpl; [|done].
    by rewrite foldl_snoc.
  - by rewrite !lookup_insert_ne.
Qed.

(** The single pass computes the mean of each group of the rows. *)
Lemma groupby_mean_groups rows : groupby_mean rows = mean <$> groupby rows.
Proof.
  apply map_eq. intros key. unfold groupby_mean.
  rewrite !lookup_fmap, group_states_lookup.
  destruct (groupby rows !! key) as [vs|]; [|done]. simpl.
  by rewrite group_result_mean.
Qed.

Lemma calculate_means_table self rows :
  calculate_means (set_weather_df self (Annotated_frame rows))
  = Return (Some (unstack (mean <$> groupby rows)))
      (set_weather_df self (Annotated_frame rows)).
Proof. unfold calculate_means. simpl. by rewrite groupby_mean_groups. Qed.

Lemma mean_present_values rows s k :
  mean (group_values rows s k)
  = match present_values rows s k with
    | [] => nan
    | xs => arithmetic_mean xs
    end.
Proof. reflexivity. Qed.

Lemma means_lookup_default rows s k :
  default nan ((mean <$> groupby rows) !! (s, k))
  = mean (group_values rows s k).
Proof.
  rewrite lookup_fmap, groupby_lookup.
  by destruct (group_values rows s k).
Qed.

Lemma group_values_nonempty rows s k :
  group_values rows s k ≠ []
  ↔ ∃ r, r ∈ rows ∧ Weather_station_ID (raw r) = s ∧ Measurement r = Some k.
Proof.
  unfold group_values. split.
  - destruct (filter _ rows) as [|r l] eqn:Hf; [done|]. intros _.
    assert (r ∈ filter (fun r => Weather_station_ID (raw r) = s
                                 ∧ Measurement r = Some k) rows) as Hr
      by (rewrite Hf; left).
    apply list_elem_of_filter in Hr as [[Hs Hk] Hr]. eauto.
  - intros (r & Hr & Hs & Hk) Hnil. apply fmap_nil_inv in Hnil.
    by apply (filter_nil_not_elem_of _ _ r Hnil).
Qed.

Lemma elem_of_dom_means rows s k :
  (s, k) ∈ dom (mean <$> groupby rows) ↔ group_values rows s k ≠ [].
Proof.
  rewrite elem_of_dom, lookup_fmap, groupby_lookup.
  destruct (group_values rows s k); simpl; [|by split; eauto].
  split; [by intros [? ?]|done].
Qed.

Lemma elem_of_sorted_labels x labels : x ∈ sorted_labels labels ↔ x ∈ labels.
Proof.
  unfold sorted_labels. rewrite merge_sort_Permutation. apply elem_of_elements.
Qed.

Lemma elem_of_grouped_stations rows s :
  s ∈ grouped_stations rows
  ↔ ∃ r, r ∈ rows ∧ Weather_station_ID (raw r) = s ∧ is_Some (Measurement r).
Proof.
  unfold grouped_stations. rewrite list_elem_of_fmap. split.
  - intros (r & -> & [Hk Hr]%list_elem_of_filter). eauto.
  - intros (r & Hr & <- & Hk). exists r. split; [done|].
    by apply list_elem_of_filter.
Qed.

Lemma elem_of_grouped_kinds rows k :
  k ∈ grouped_kinds rows ↔ ∃ r, r ∈ rows ∧ Measurement r = Some k.
Proof. unfold grouped_kinds. by rewrite list_elem_of_omap. Qed.

Lemma index_means rows s :
  s ∈ sorted_labels (set_map fst (dom (mean <$> groupby rows)))
  ↔ s ∈ grouped_stations rows.
Proof.
  rewrite elem_of_sorted_labels, elem_of_map, elem_of_grouped_stations. split.
  - intros ([s' k] & -> & Hdom). apply elem_of_dom_means in Hdom.
    apply group_values_nonempty in Hdom as (r & ? & ? & Hk).
    exists r. by rewrite Hk.
  - intros (r & Hr & Hs & [k Hk]). exists (s, k). split; [done|].
    apply elem_of_dom_means, group_values_nonempty. eauto.
Qed.

Lemma columns_means rows k :
  k ∈ sorted_labels (set_map snd (dom (mean <$> groupby rows)))
  ↔ k ∈ grouped_kinds rows.
Proof.
  rewrite elem_of_sorted_labels, elem_of_map, elem_of_grouped_kinds. split.
  - intros ([s k'] & -> & Hdom). apply elem_of_dom_means in Hdom.
    apply group_values_nonempty in Hdom as (r & ? & ? & Hk). eauto.
  - intros (r & Hr & Hk). exists (Weather_station_ID (raw r), k).
    split; [done|]. apply elem_of_dom_means, group_values_nonempty. eauto.
Qed.

Lemma position_elem_of x l :
  x ∈ l → ∃ i, position x l = Some i ∧ l !! i = Some x.
Proof.
  intros Hx. unfold position.
  destruct (list_find_elem_of (x =.) l x Hx eq_refl) as [[i y] Hfind].
  rewrite Hfind. apply list_find_Some in Hfind as (Hi & <- & _). eauto.
Qed.

Lemma position_not_elem_of x l : x ∉ l → position x l = None.
Proof.
  intros Hx. unfold position.
  rewrite (proj2 (list_find_None (x =.) l)); [done|].
  apply Forall_forall. intros y Hy <-. done.
Qed.

Lemma cell_unstack means s k :
  cell (unstack means) s k
  = if decide (s ∈ index (unstack means) ∧ k ∈ columns (unstack means))
    then Some (default nan (means !! (s, k)))
    else None.
Proof.
  unfold cell, unstack. simpl.
  set (stations := sorted_labels (set_map fst (dom means))).
  set (kinds := sorted_labels (set_map snd (dom means))).
  case_decide as Hin.
  - destruct Hin as [Hs Hk].
    destruct (position_elem_of s stations Hs) as (i & -> & Hi).
    destruct (position_elem_of k kinds Hk) as (j & -> & Hj). simpl.
    rewrite list_lookup_fmap, Hi. simpl.
    by rewrite list_lookup_fmap, Hj.
  - destruct (decide (s ∈ stations)) as [Hs|Hs].
    + assert (k ∉ kinds) as Hk by (intros Hk; by apply Hin).
      destruct (position s stations) as [i|]; simpl; [|done].
      by rewrite (position_not_elem_of k kinds Hk).
    + by rewrite (position_not_elem_of s stations Hs).
Qed.

Lemma calculate_means_annotated self rows :
  let self' := set_weather_df self (Annotated_frame rows) in
  let t := unstack (mean <$> groupby rows) in
  calculate_means self' = Return (Some t) self'
  ∧ (∀ s, s ∈ index t ↔ s ∈ grouped_stations rows)
  ∧ (∀ k, k ∈ columns t ↔ k ∈ grouped_kinds rows)
  ∧ ∀ s k, cell t s k
           = if decide (s ∈ grouped_stations rows ∧ k ∈ grouped_kinds rows)
             then Some match present_values rows s k with
                       | [] => nan
                       | xs => arithmetic_mean xs
                       end
             else None.
Proof.
  intros self' t. split; [apply calculate_means_table|].
  split; [apply index_means|]. split; [apply columns_means|].
  intros s k. unfold t. rewrite cell_unstack. simpl.
  rewrite means_lookup_default, mean_present_values.
  apply decide_ext. by rewrite index_means, columns_means.
Qed.

(** C3: the table has a row label for each station and a column label for
    each measurement name that occur in a row with a measurement; rows
    without a measurement belong to no group; the cell of a station and a
    name is the arithmetic mean of the present values of the rows with this
    station and this name (NaN when there is none).  For the two
    temperatures 20 and 30 of S1 and the temperature 10 of S2 the means are
    25 and 10 and there is no column "hum". *)
Theorem calculate_means_groups_by_station_and_kind :
  (∀ self rows,
     ∃ t, calculate_means (set_weather_df self (Annotated_frame rows))
          = Return (Some t) (set_weather_df self (Annotated_frame rows))
        ∧ (∀ s, s ∈ index t ↔ s ∈ grouped_stations rows)
        ∧ (∀ k, k ∈ columns t ↔ k ∈ grouped_kinds rows)
        ∧ ∀ s k, cell t s k
                 = if decide (s ∈ grouped_stations rows
                              ∧ k ∈ grouped_kinds rows)
                   then Some match present_values rows s k with
                             | [] => nan
                             | xs => arithmetic_mean xs
                             end
                   else None)
  ∧ ∃ t, calculate_means
           (set_weather_df Example.processor (Annotated_frame Example.scenario))
         = Return (Some t)
             (set_weather_df Example.processor (Annotated_frame Example.scenario))
       ∧ cell t "S1" "temp" = Some 25%float
       ∧ cell t "S2" "temp" = Some 10%float
       ∧ cell t "S1" "hum" = None
       ∧ columns t = ["temp"].
Proof.
  split.
  - intros self rows. eexists. apply calculate_means_annotated.
  - eexists. split; [reflexivity|]. vm_compute. done.
Qed.

(** ** The pipeline *)

Section Pipeline.
Context `{Library}.

Lemma calculate_means_set_annotated self rows :
  calculate_means (set_weather_df self (Annotated_frame rows))
  = Return (Some (unstack (mean <$> groupby rows)))
      (set_weather_df self (Annotated_frame rows)).
Proof. apply calculate_means_table. Qed.

(** Once the table is annotated, [process_messages] returns it unchanged. *)
Lemma process_messages_again self df extracted :
  apply (extract_measurement self) (Message_column df) = Returns extracted →
  extracted ≠ [] →
  let df' := Annotated_frame (zip_with annotate (raw_rows df) extracted) in
  process_messages (set_weather_df self df')
  = Return (Some df') (set_weather_df self df').
Proof.
  intros Happly Hne df'.
  assert (raw_rows df' = raw_rows df) as Hraw.
  { apply raw_zip_with_annotate.
    apply apply_Returns_Forall2, Forall2_length in Happly.
    unfold Message_column in Happly. by rewrite length_fmap in Happly. }
  rewrite (process_messages_loaded _ df') by done.
  unfold Message_column. rewrite Hraw.
  change (extract_measurement (set_weather_df self df'))
    with (extract_measurement self).
  unfold Message_column in Happly. rewrite Happly.
  by destruct extracted.
Qed.

(** C8: the batch processor followed by the aggregator, run a second time
    on the processor the first run leaves, ends as the first run does: the
    same table with the same floats, or the same exception. *)
Theorem annotate_and_aggregate_twice self :
  (annotate_and_aggregate ;; annotate_and_aggregate) self
  = annotate_and_aggregate self.
Proof.
  unfold annotate_and_aggregate, mbind, method_bind.
  destruct (weather_df self) as [df|] eqn:Hdf.
  - rewrite (process_messages_loaded self df Hdf).
    destruct (apply _ _) as [[|kv extracted]|e] eqn:Happly; [done| |done].
    cbv beta iota zeta. rewrite calculate_means_set_annotated.
    rewrite (process_messages_again self df (kv :: extracted) Happly)
      by discriminate.
    apply calculate_means_set_annotated.
  - unfold process_messages, calculate_means.
    repeat (rewrite Hdf; cbv beta iota). reflexivity.
Qed.

End Pipeline.

(** ** The code on concrete tables *)

Lemma process_messages_annotates_every_row_witness :
  process_messages Example.loaded
  = Return
      (Some (Annotated_frame
               (zip_with annotate Example.station_rows Example.extracted)))
      (set_weather_df Example.loaded
         (Annotated_frame
            (zip_with annotate Example.station_rows Example.extracted)))
  ∧ raw <$> zip_with annotate Example.station_rows Example.extracted
    = Example.station_rows
  ∧ ∀ i r, Example.station_rows !! i = Some r →
           ∃ kv, extract_measurement Example.loaded (Message r) = Returns kv
                 ∧ zip_with annotate Example.station_rows Example.extracted !! i
                   = Some {| raw := r; Measurement := kv.1;
                             Value := to_float64 kv.2 |}.
Proof.
  apply (process_messages_annotates_every_row Example.loaded
           (Raw_frame Example.station_rows) Example.extracted).
  - reflexivity.
  - discriminate.
  - repeat (constructor; [vm_compute; reflexivity|]). constructor.
Defined.

Lemma process_messages_aborts_on_ValueError_witness :
  extract_measurement
    (Example.rain_processor [Example.well_formed; Example.malformed])
    "Rain: 1.2.3 mm" = Raises ValueError
  ∧ extract_measurement
      (Example.rain_processor [Example.well_formed; Example.malformed])
      "Rain: 1.2.3 mm" ≠ Returns (None, None)
  ∧ process_messages
      (Example.rain_processor [Example.well_formed; Example.malformed])
    = Raise ValueError
        (Example.rain_processor [Example.well_formed; Example.malformed]).
Proof.
  apply (process_messages_aborts_on_ValueError
           (Example.rain_processor [Example.well_formed; Example.malformed])
           (Raw_frame [Example.well_formed; Example.malformed])
           [Example.well_formed] Example.malformed []
           [] "rain" "Rain: ([\d.]+)" [] 0 "1.2.3" []).
  - reflexivity.
  - reflexivity.
  - constructor; [|constructor].
    exists (Some "rain", Some 4.5%float). vm_compute. reflexivity.
  - reflexivity.
  - constructor.
  - vm_compute. reflexivity.
  - vm_compute. reflexivity.
Defined.

Lemma not_loaded_returns_None_witness :
  process_messages Example.processor = Return None Example.processor
  ∧ calculate_means Example.processor = Return None Example.processor.
Proof. apply (not_loaded_returns_None Example.processor). reflexivity. Defined.

(** C2 fails as stated: with a malformed number in the first row, the
    batch processor raises; it does not return the table in which that row
    is unmatched and the next row is annotated. *)
Lemma process_messages_does_not_recover :
  let p := Example.rain_processor [Example.malformed; Example.well_formed] in
  let recovered :=
    Annotated_frame [annotate Example.malformed (None, None);
                     annotate Example.well_formed (Some "rain", Some 4.5%float)] in
  extract_measurement p "Rain: 1.2.3 mm" = Raises ValueError
  ∧ extract_measurement p "Rain: 4.5 mm" = Returns (Some "rain", Some 4.5%float)
  ∧ process_messages p = Raise ValueError p
  ∧ process_messages p ≠ Return (Some recovered) (set_weather_df p recovered).
Proof.
  intros p recovered.
  assert (process_messages p = Raise ValueError p) as Hp
    by (vm_compute; reflexivity).
  split; [vm_compute; reflexivity|].
  split; [vm_compute; reflexivity|].
  split; [done|]. rewrite Hp. discriminate.
Qed.

(** C4 fails as stated: when the extraction of a later row raises, no row
    is emitted, the rows before it included. *)
Lemma process_messages_emits_nothing_on_exception :
  let p := Example.rain_processor [Example.well_formed; Example.malformed] in
  process_messages p = Raise ValueError p
  ∧ ¬ ∃ rows', process_messages p
               = Return (Some (Annotated_frame rows'))
                   (set_weather_df p (Annotated_frame rows'))
             ∧ raw <$> rows' = [Example.well_formed; Example.malformed].
Proof.
  intros p.
  assert (process_messages p = Raise ValueError p) as Hp
    by (vm_compute; reflexivity).
  split; [done|]. intros (rows' & Hret & _). rewrite Hp in Hret. discriminate.
Qed.

(** C6: a file with a header line and no row is read without an error;
    [process] then stops in [process_messages] with the ValueError of the
    failed unpacking. *)
Theorem process_header_only_raises_ValueError :
  read_from_web_CSV "header_only.csv" = Returns (Raw_frame [])
  ∧ process Example.header_only_processor
    = Raise ValueError
        (set_weather_df Example.header_only_processor (Raw_frame []))
  ∧ query_data "sqlite:///farm.db" "SELECT * FROM weather" = Raises ValueError.
Proof.
  split; [by apply read_from_web_CSV_Returns|].
  split; [by apply process_no_rows|].
  by apply (query_data_no_rows _ _ (Raw_frame [])).
Qed.

(** The scenario of the extractor: a temperature, and a message without
    measurement. *)
Example extract_measurement_scenario :
  extract_measurement Example.processor "Temperature: 23.5C"
  = Returns (Some "temp", Some 23.5%float)
  ∧ extract_measurement Example.processor "no data" = Returns (None, None).
Proof. split; vm_compute; reflexivity. Qed.

(** A pattern whose only group takes no part in the match. *)
Example extract_measurement_absent_group :
  Re.search "Gust(\d+)?!" "Gust!" = Re.Match [None]
  ∧ extract_measurement
      {| weather_station_data := "stations.csv";
         patterns := [("gust", "Gust(\d+)?!"); ("number", "(\d+)")];
         weather_df := None |} "Gust! 12"
    = Raises StopIteration.
Proof. split; vm_compute; reflexivity. Qed.

(** The pipeline on the stations file, run twice. *)
Example annotate_and_aggregate_stations :
  ∃ self', (annotate_and_aggregate ;; annotate_and_aggregate) Example.loaded
           = Return (Some {| index := ["S1"; "S2"];
                             columns := ["hum"; "temp"];
                             values := [[nan; 25%float]; [10%float; nan]] |})
               self'.
Proof. eexists. vm_compute. reflexivity. Qed.

(** ** What the extractor returns and raises *)

Section Extractor_outcomes.
Context `{Library}.

Lemma next_not_None_cases groups :
  (Forall (.= None) groups ∧ next_not_None groups = Raises StopIteration)
  ∨ ∃ n x rest, groups = replicate n None ++ Some x :: rest
                ∧ next_not_None groups = Returns x.
Proof.
  induction groups as [|[x|] groups IH].
  - left. by split.
  - right. by exists 0, x, groups.
  - destruct IH as [[Hall Hnext]|(n & x & rest & -> & Hnext)].
    + left. split; [by constructor|done].
    + right. by exists (S n), x, rest.
Qed.

(** The outcome of the loop, read from the first item whose pattern does
    not report a failed match. *)
Lemma extract_from_first items message :
  (Forall (no_match message) items
   ∧ extract_from items message = Returns (None, None))
  ∨ ∃ before key pattern after,
      items = before ++ (key, pattern) :: after
      ∧ Forall (no_match message) before
      ∧ re_search pattern message ≠ Re.No_match
      ∧ extract_from items message
        = match re_search pattern message with
          | Re.Error => Raises re_error
          | Re.No_match => Returns (None, None)
          | Re.Match groups =>
              match next_not_None groups with
              | Raises e => Raises e
              | Returns x =>
                  match float_of_str x with
                  | None => Raises ValueError
                  | Some v => Returns (Some key, Some v)
                  end
              end
          end.
Proof.
  induction items as [|[key pattern] items IH].
  - left. by split.
  - destruct (re_search pattern message) as [| |groups] eqn:Hsearch.
    + right. exists [], key, pattern, items.
      split; [done|]. split; [constructor|]. rewrite Hsearch.
      split; [done|]. simpl. by rewrite Hsearch.
    + destruct IH as [[Hall Hnone]|(before & k & p & after & -> & Hb & Hne & Hout)].
      * left. split; [by constructor|]. simpl. by rewrite Hsearch.
      * right. exists ((key, pattern) :: before), k, p, after.
        split; [done|]. split; [by constructor|]. split; [done|].
        simpl. by rewrite Hsearch.
    + right. exists [], key, pattern, items.
      split; [done|]. split; [constructor|]. rewrite Hsearch.
      split; [done|]. simpl. by rewrite Hsearch.
Qed.

(** X1: whatever [extract_measurement] returns is either (None, None),
    and then no registered pattern matches the message, or the key of the
    first registered pattern that matches with the float of its first
    group that is not [None]; no other pair is ever returned. *)
Theorem extract_measurement_returns_inv self message kind value :
  extract_measurement self message = Returns (kind, value) →
  (kind = None ∧ value = None ∧ Forall (no_match message) (patterns self))
  ∨ ∃ before key pattern after n x rest v,
      patterns self = before ++ (key, pattern) :: after
      ∧ Forall (no_match message) before
      ∧ re_search pattern message
        = Re.Match (replicate n None ++ Some x :: rest)
      ∧ float_of_str x = Some v
      ∧ kind = Some key ∧ value = Some v.
Proof.
  unfold extract_measurement. intros Hret.
  destruct (extract_from_first (patterns self) message)
    as [[Hall Hnone]|(before & key & pattern & after & Hreg & Hb & Hne & Hout)].
  - left. rewrite Hnone in Hret. by injection Hret as <- <-.
  - right. rewrite Hout in Hret.
    destruct (re_search pattern message) as [| |groups] eqn:Hsearch; [done..|].
    destruct (next_not_None_cases groups)
      as [[_ Hnext]|(n & x & rest & -> & Hnext)];
      rewrite Hnext in Hret; [done|].
    destruct (float_of_str x) as [v|] eqn:Hfloat; [|done].
    injection Hret as <- <-.
    by exists before, key, pattern, after, n, x, rest, v.
Qed.


Lemma extract_from_app items extra message :
  extract_from (items ++ extra) message
  = match extract_from items message with
    | Returns (None, None) => extract_from extra message
    | outcome => outcome
    end.
Proof.
  induction items as [|[key pattern] items IH]; [done|]. simpl.
  destruct (re_search pattern message) as [| |groups]; [done|done|].
  destruct (next_not_None groups) as [x|e]; [|done].
  by destruct (float_of_str x).
Qed.

(** X3: a registry made of two registries one after the other acts as an
    ordered choice: the result is that of the first registry, unless the
    first registry returns (None, None), in which case it is that of the
    second; in particular, patterns appended to a registry never change the
    result for a message the registry already decides. *)
Theorem extract_measurement_app path df items extra message :
  extract_measurement
    {| weather_station_data := path; patterns := items ++ extra;
       weather_df := df |} message
  = match extract_measurement
            {| weather_station_data := path; patterns := items;
               weather_df := df |} message with
    | Returns (None, None) =>
        extract_measurement
          {| weather_station_data := path; patterns := extra;
             weather_df := df |} message
    | outcome => outcome
    end.
Proof. apply extract_from_app. Qed.

End Extractor_outcomes.

Lemma extract_measurement_returns_inv_witness :
  (Some "temp" = None ∧ Some 23.5%float = None
   ∧ Forall (no_match "Temperature: 23.5C") (patterns Example.processor))
  ∨ ∃ before key pattern after n x rest v,
      patterns Example.processor = before ++ (key, pattern) :: after
      ∧ Forall (no_match "Temperature: 23.5C") before
      ∧ re_search pattern "Temperature: 23.5C"
        = Re.Match (replicate n None ++ Some x :: rest)
      ∧ float_of_str x = Some v
      ∧ Some "temp" = Some key ∧ Some 23.5%float = Some v.
Proof.
  apply (extract_measurement_returns_inv Example.processor
           "Temperature: 23.5C" (Some "temp") (Some 23.5%float)).
  vm_compute. reflexivity.
Defined.

(** ** What the batch processor returns and raises *)

Section Batch_outcomes.
Context `{Library}.

Lemma apply_Raises_inv {A B} (f : A → result B) xs e :
  apply f xs = Raises e →
  ∃ xs1 x xs2, xs = xs1 ++ x :: xs2
               ∧ Forall (fun x' => ∃ y, f x' = Returns y) xs1
               ∧ f x = Raises e.
Proof.
  induction xs as [|x xs IH]; [done|]. simpl.
  destruct (f x) as [y|e'] eqn:Hx.
  - destruct (apply f xs) as [ys|e'] eqn:Hxs; [done|].
    intros [= ->]. destruct (IH eq_refl) as (xs1 & x' & xs2 & -> & Hxs1 & Hx').
    exists (x :: xs1), x', xs2. split; [done|]. split; [|done].
    constructor; eauto.
  - intros [= ->]. exists [], x, xs. by split; [|split].
Qed.

Lemma apply_fmap {A B C} (f : B → result C) (g : A → B) xs :
  apply f (g <$> xs) = apply (fun x => f (g x)) xs.
Proof.
  induction xs as [|x xs IH]; [done|]. csimpl. by rewrite IH.
Qed.

(** The pair the extractor returns has a name exactly when it has a value,
    and the name is a key of the registry. *)
Lemma extract_measurement_pair self message kind value :
  extract_measurement self message = Returns (kind, value) →
  match kind with
  | None => value = None
  | Some key => key ∈ (patterns self).*1 ∧ is_Some value
  end.
Proof.
  unfold extract_measurement. intros Hret.
  destruct (extract_from_first (patterns self) message)
    as [[Hall Hnone]|(before & key & pattern & after & Hreg & Hb & Hne & Hout)].
  - rewrite Hnone in Hret. by injection Hret as <- <-.
  - rewrite Hout in Hret.
    destruct (re_search pattern message) as [| |groups]; [done..|].
    destruct (next_not_None groups) as [x|e']; [|done].
    destruct (float_of_str x) as [v|]; [|done].
    injection Hret as <- <-. split; [|by eexists].
    rewrite Hreg, fmap_app, fmap_cons. apply elem_of_app. right. left.
Qed.

(** X4: when [process_messages] raises, the processor is left exactly as it
    was (no row is annotated), and the exception has one of two origins:
    the loaded table has no row and the exception is ValueError, or it is
    the exception of the first row, in input order, whose extraction
    raises. *)
Theorem process_messages_raises_inv self e self' :
  process_messages self = Raise e self' →
  self' = self
  ∧ ∃ df, weather_df self = Some df
          ∧ ((raw_rows df = [] ∧ e = ValueError)
             ∨ ∃ earlier r later,
                 raw_rows df = earlier ++ r :: later
                 ∧ Forall (fun r' => ∃ kv, extract_measurement self (Message r')
                                           = Returns kv) earlier
                 ∧ extract_measurement self (Message r) = Raises e).
Proof.
  destruct (weather_df self) as [df|] eqn:Hdf.
  - rewrite (process_messages_loaded self df Hdf).
    unfold Message_column. rewrite apply_fmap.
    destruct (apply _ (raw_rows df)) as [[|kv extracted]|e'] eqn:Happly.
    + intros [= <- <-]. split; [done|]. exists df. split; [done|]. left.
      apply apply_Returns_Forall2, Forall2_nil_inv_r in Happly. done.
    + done.
    + intros [= <- <-]. split; [done|]. exists df. split; [done|]. right.
      by apply apply_Raises_inv in Happly.
  - unfold process_messages. by rewrite Hdf.
Qed.

(** X5: on a loaded table without rows [process_messages] raises
    ValueError, whatever the registry is, and leaves the processor as it
    was. *)
Theorem process_messages_no_rows self df :
  weather_df self = Some df →
  raw_rows df = [] →
  process_messages self = Raise ValueError self.
Proof.
  intros Hdf Hrows. rewrite (process_messages_loaded self df Hdf).
  unfold Message_column. by rewrite Hrows.
Qed.

(** X6: a table that [process_messages] returns is never empty, has the
    rows of the loaded table in their order, and in each of its rows the
    measurement is a key of the registry, or it is [None] and the value is
    NaN; the processor then holds this table, and nothing else changed. *)
Theorem process_messages_returns_inv self df self' :
  process_messages self = Return (Some df) self' →
  ∃ loaded rows',
    weather_df self = Some loaded
    ∧ df = Annotated_frame rows'
    ∧ self' = set_weather_df self df
    ∧ rows' ≠ []
    ∧ raw <$> rows' = raw_rows loaded
    ∧ Forall (fun r => match Measurement r with
                       | None => PrimFloat.is_nan (Value r) = true
                       | Some key => key ∈ (patterns self).*1
                       end) rows'.
Proof.
  destruct (weather_df self) as [loaded|] eqn:Hdf.
  - rewrite (process_messages_loaded self loaded Hdf).
    unfold Message_column. rewrite apply_fmap.
    destruct (apply _ (raw_rows loaded)) as [[|kv extracted]|e'] eqn:Happly;
      [done| |done].
    cbv zeta. intros [= <- <-].
    apply apply_Returns_Forall2 in Happly.
    exists loaded, (zip_with annotate (raw_rows loaded) (kv :: extracted)).
    split; [done|]. split; [done|]. split; [done|].
    split; [|split].
    + destruct (raw_rows loaded); [by apply Forall2_nil_cons_inv in Happly|done].
    + apply raw_zip_with_annotate. by eapply Forall2_length.
    + apply Forall_forall. intros r' Hr'.
      apply list_elem_of_lookup in Hr' as [i Hi].
      rewrite lookup_zip_with in Hi.
      destruct (raw_rows loaded !! i) as [r|] eqn:Hr; [|done]. simpl in Hi.
      destruct ((kv :: extracted) !! i) as [[kind value]|] eqn:Hkv; [|done].
      injection Hi as <-. simpl.
      pose proof (Forall2_lookup_lr _ _ _ _ _ _ Happly Hr Hkv) as Hext.
      apply extract_measurement_pair in Hext.
      destruct kind as [key|]; [by destruct Hext|by subst].
  - unfold process_messages. rewrite Hdf. done.
Qed.

(** X7: [process_messages] reads the stations and the messages only: of
    two tables with the same rows, whatever measurements and values they
    already hold, one is processed as the other is: the same table is
    returned and stored, or the same exception is raised (and each
    processor keeps its table); earlier values of Measurement and Value are
    overwritten and never consulted. *)
Theorem process_messages_overwrites self df1 df2 :
  raw_rows df1 = raw_rows df2 →
  process_messages (set_weather_df self df1)
  = match process_messages (set_weather_df self df2) with
    | Return out self' => Return out self'
    | Raise e _ => Raise e (set_weather_df self df1)
    end.
Proof.
  intros Hraw.
  rewrite (process_messages_loaded _ df1), (process_messages_loaded _ df2)
    by done.
  unfold Message_column. rewrite Hraw.
  change (extract_measurement (set_weather_df self df1))
    with (extract_measurement self).
  change (extract_measurement (set_weather_df self df2))
    with (extract_measurement self).
  by destruct (apply _ _) as [[|kv extracted]|e].
Qed.

(** X8: when reading the file fails, [process] raises the exception of the
    reader as it is, and the processor keeps the table it had. *)
Theorem process_load_failure self e :
  read_csv (weather_station_data self) = Raises e →
  process self = Raise e self.
Proof.
  intros Hread. unfold process, mbind, method_bind.
  unfold weather_station_mapping, read_from_web_CSV. rewrite Hread.
  by destruct e.
Qed.


(** X10: end to end.  When the file has at least one row and every
    extraction returns, [process] followed by [calculate_means] returns a
    table in which the cell of a station and a measurement name is the
    arithmetic mean of the values extracted from the messages of this
    station that the extractor assigns to this name. *)
Theorem process_then_calculate_means self df extracted :
  read_csv (weather_station_data self) = Returns df →
  raw_rows df ≠ [] →
  Forall2 (fun r kv => extract_measurement self (Message r) = Returns kv)
    (raw_rows df) extracted →
  let rows' := zip_with annotate (raw_rows df) extracted in
  ∃ t, (process ;; calculate_means) self
       = Return (Some t) (set_weather_df self (Annotated_frame rows'))
     ∧ ∀ s k, cell t s k
              = if decide (s ∈ grouped_stations rows' ∧ k ∈ grouped_kinds rows')
                then Some match present_values rows' s k with
                          | [] => nan
                          | xs => arithmetic_mean xs
                          end
                else None.
Proof.
  intros Hread Hrows Hall rows'.
  exists (unstack (mean <$> groupby rows')). split.
  - unfold process, mbind, method_bind.
    unfold weather_station_mapping, read_from_web_CSV. rewrite Hread.
    rewrite (process_messages_loaded _ df) by done.
    unfold Message_column. rewrite apply_fmap.
    rewrite (apply_Forall2 _ _ extracted) by done.
    destruct extracted as [|kv extracted];
      [by apply Forall2_nil_inv_r in Hall|].
    exact (calculate_means_table self rows').
  - apply (calculate_means_annotated self rows').
Qed.

(** X11: [process] starts from the file alone: when the file can be read,
    the outcome does not depend on the table the processor held before. *)
Theorem process_ignores_previous_table self df previous :
  read_csv (weather_station_data self) = Returns df →
  process (set_weather_df self previous) = process self.
Proof.
  intros Hread. unfold process, mbind, method_bind.
  unfold weather_station_mapping, read_from_web_CSV. simpl.
  by rewrite Hread.
Qed.

End Batch_outcomes.

(** ** The shape and the content of the summary table *)

Lemma string_compare_le_trans a b c :
  String.compare a b ≠ Gt → String.compare b c ≠ Gt → String.compare a c ≠ Gt.
Proof.
  revert b c. induction a as [|x a IH]; intros [|y b] [|z c]; simpl; try done.
  unfold Ascii.compare.
  destruct (N.compare_spec (N_of_ascii x) (N_of_ascii y));
    destruct (N.compare_spec (N_of_ascii y) (N_of_ascii z));
    destruct (N.compare_spec (N_of_ascii x) (N_of_ascii z));
    try done; try lia; eauto.
Qed.

Lemma string_leb_transitive :
  Transitive (fun a b : string => Is_true (String.leb a b)).
Proof.
  intros a b c. unfold String.leb. intros Hab Hbc.
  pose proof (string_compare_le_trans a b c) as Hac.
  destruct (String.compare a b), (String.compare b c), (String.compare a c);
    try done; by exfalso; apply Hac.
Qed.

Lemma string_leb_total : Total (fun a b : string => Is_true (String.leb a b)).
Proof.
  intros a b. destruct (String.leb_total a b) as [Hab|Hba].
  - left. by apply Is_true_true.
  - right. by apply Is_true_true.
Qed.

Lemma sorted_labels_sorted labels :
  StronglySorted (fun a b : string => Is_true (String.leb a b))
    (sorted_labels labels)
  ∧ NoDup (sorted_labels labels).
Proof.
  unfold sorted_labels. split.
  - apply (@StronglySorted_merge_sort _ _ _ string_leb_transitive
             string_leb_total).
  - rewrite merge_sort_Permutation. apply NoDup_elements.
Qed.

(** A table comes out of [calculate_means] only for an annotated table. *)
Lemma calculate_means_Return_inv self t self' :
  calculate_means self = Return (Some t) self' →
  ∃ rows, weather_df self = Some (Annotated_frame rows)
          ∧ t = unstack (mean <$> groupby rows) ∧ self' = self.
Proof.
  unfold calculate_means.
  destruct (weather_df self) as [[rows|rows]|];
    [by destruct (length rows =? 2)%nat| |done].
  intros [= <- <-]. exists rows. by rewrite groupby_mean_groups.
Qed.

(** X13: the station labels and the column labels of a table returned by
    [calculate_means] are in ascending order of their characters, each
    label once. *)
Theorem calculate_means_labels_sorted self t self' :
  calculate_means self = Return (Some t) self' →
  StronglySorted (fun a b : string => Is_true (String.leb a b)) (index t)
  ∧ NoDup (index t)
  ∧ StronglySorted (fun a b : string => Is_true (String.leb a b)) (columns t)
  ∧ NoDup (columns t).
Proof.
  intros (rows & _ & -> & _)%calculate_means_Return_inv.
  unfold unstack. simpl.
  destruct (sorted_labels_sorted (set_map fst (dom (mean <$> groupby rows)))).
  destruct (sorted_labels_sorted (set_map snd (dom (mean <$> groupby rows)))).
  done.
Qed.

Lemma groupby_ext rows rows' :
  (∀ s k, group_values rows s k = group_values rows' s k) →
  groupby rows = groupby rows'.
Proof.
  intros Hgroups. apply map_eq. intros [s k].
  by rewrite !groupby_lookup, Hgroups.
Qed.

(** X14: the table depends only on the values of each station and
    measurement name, taken in row order: two tables of rows that agree on
    these sequences have the same summary, float for float, however the
    rows of different groups are interleaved. *)
Theorem calculate_means_groupwise self rows rows' :
  (∀ s k, group_values rows s k = group_values rows' s k) →
  ∃ t, calculate_means (set_weather_df self (Annotated_frame rows))
       = Return (Some t) (set_weather_df self (Annotated_frame rows))
     ∧ calculate_means (set_weather_df self (Annotated_frame rows'))
       = Return (Some t) (set_weather_df self (Annotated_frame rows')).
Proof.
  intros Hgroups. exists (unstack (mean <$> groupby rows)).
  split; [apply calculate_means_table|].
  rewrite (groupby_ext rows rows') by done. apply calculate_means_table.
Qed.

Lemma group_values_measured rows s k :
  group_values (filter (fun r => is_Some (Measurement r)) rows) s k
  = group_values rows s k.
Proof.
  unfold group_values. f_equal. rewrite list_filter_filter.
  apply list_filter_iff. intros r. split; [by intros [? _]|].
  intros [Hs Hk]. split; [done|]. by rewrite Hk.
Qed.

(** X15: the rows without a measurement have no influence on the summary:
    dropping them before [calculate_means] gives the same table. *)
Theorem calculate_means_ignores_unmatched self rows :
  ∃ t, calculate_means (set_weather_df self (Annotated_frame rows))
       = Return (Some t) (set_weather_df self (Annotated_frame rows))
     ∧ calculate_means
         (set_weather_df self
            (Annotated_frame (filter (fun r => is_Some (Measurement r)) rows)))
       = Return (Some t)
           (set_weather_df self
              (Annotated_frame
                 (filter (fun r => is_Some (Measurement r)) rows))).
Proof.
  exists (unstack (mean <$> groupby rows)).
  split; [apply calculate_means_table|].
  rewrite <- (groupby_ext _ rows (group_values_measured rows)).
  apply calculate_means_table.
Qed.

Lemma sorted_labels_ext (X Y : gset string) :
  (∀ x, x ∈ X ↔ x ∈ Y) → sorted_labels X = sorted_labels Y.
Proof. intros HXY. f_equal. by apply set_eq. Qed.

(** X16: the labels of the table do not depend on the order of the rows:
    a permutation of the rows gives the same index and the same columns. *)
Theorem calculate_means_labels_permutation self rows rows' t t' :
  rows ≡ₚ rows' →
  calculate_means (set_weather_df self (Annotated_frame rows))
  = Return (Some t) (set_weather_df self (Annotated_frame rows)) →
  calculate_means (set_weather_df self (Annotated_frame rows'))
  = Return (Some t') (set_weather_df self (Annotated_frame rows')) →
  index t = index t' ∧ columns t = columns t'.
Proof.
  intros Hperm. rewrite !calculate_means_table.
  intros [= <-] [= <-]. unfold unstack. simpl. split.
  - apply sorted_labels_ext. intros s.
    rewrite <- !elem_of_sorted_labels, !index_means.
    rewrite !elem_of_grouped_stations. by setoid_rewrite Hperm.
  - apply sorted_labels_ext. intros k.
    rewrite <- !elem_of_sorted_labels, !columns_means.
    rewrite !elem_of_grouped_kinds. by setoid_rewrite Hperm.
Qed.

(** X17: every number in the table comes from a row: a cell that is not
    NaN has at least one row of its station and measurement name whose
    value is not NaN. *)
Theorem calculate_means_cell_has_row self t self' s k v :
  calculate_means self = Return (Some t) self' →
  cell t s k = Some v →
  PrimFloat.is_nan v = false →
  ∃ rows r, weather_df self = Some (Annotated_frame rows)
            ∧ r ∈ rows
            ∧ Weather_station_ID (raw r) = s
            ∧ Measurement r = Some k
            ∧ PrimFloat.is_nan (Value r) = false.
Proof.
  intros (rows & Hdf & -> & _)%calculate_means_Return_inv Hcell Hv.
  rewrite cell_unstack in Hcell. case_decide; [|done].
  injection Hcell as <-.
  rewrite means_lookup_default in Hv. unfold mean in Hv.
  destruct (List.filter _ (group_values rows s k)) as [|x xs] eqn:Hpresent;
    [done|].
  assert (In x (List.filter (fun v => negb (PrimFloat.is_nan v))
                  (group_values rows s k))) as Hx
    by (rewrite Hpresent; by left).
  apply filter_In in Hx as [Hx Hnan].
  apply list_elem_of_In in Hx. unfold group_values in Hx.
  apply list_elem_of_fmap in Hx as (r & -> & Hr).
  apply list_elem_of_filter in Hr as [[Hs Hk] Hr].
  exists rows, r. split; [done|]. split; [done|]. split; [done|].
  split; [done|]. by apply negb_true_iff in Hnan.
Qed.

(** ** The database loader *)

Section Database.
Context `{SQLAlchemy}.

(** X18: [create_db_engine] never raises ImportError: when creating the
    engine or connecting raises ImportError (or ModuleNotFoundError), the
    handler's [raise e] raises UnboundLocalError instead; every other
    exception leaves the function as it was raised. *)
Theorem create_db_engine_raises_inv db_path e :
  create_db_engine db_path = Raises e →
  is_ImportError e = false
  ∧ ∃ e0, (create_engine db_path = Raises e0
           ∨ ∃ engine, create_engine db_path = Returns engine
                       ∧ connect engine = Raises e0)
          ∧ e = if is_ImportError e0 then OtherError "UnboundLocalError"
                else e0.
Proof.
  unfold create_db_engine, create_db_engine_except.
  destruct (create_engine db_path) as [engine|e0] eqn:Hcreate.
  - destruct (connect engine) as [[]|e0] eqn:Hconnect; [done|].
    destruct (is_ImportError e0) eqn:He0; intros [= <-].
    + split; [done|]. exists e0. rewrite He0. split; [|done].
      right. by exists engine.
    + split; [done|]. exists e0. rewrite He0. split; [|done].
      right. by exists engine.
  - destruct (is_ImportError e0) eqn:He0; intros [= <-].
    + split; [done|]. exists e0. rewrite He0. split; [by left|done].
    + split; [done|]. exists e0. rewrite He0. split; [by left|done].
Qed.

(** X19: an engine that [create_db_engine] returns is the engine created
    for the path, and the test connection to it succeeded. *)
Theorem create_db_engine_returns_inv db_path engine :
  create_db_engine db_path = Returns engine →
  create_engine db_path = Returns engine ∧ connect engine = Returns ().
Proof.
  unfold create_db_engine, create_db_engine_except.
  destruct (create_engine db_path) as [engine'|e0] eqn:Hcreate.
  - destruct (connect engine') as [[]|e0] eqn:Hconnect.
    + by intros [= <-].
    + by destruct (is_ImportError e0).
  - by destruct (is_ImportError e0).
Qed.

End Database.

Section Query.
Context `{Library}.

(** X20: [query_data] returns a table exactly when the query gives a table
    with at least one row, and then returns that table; it raises the
    exception of the query, or ValueError when the query gives a table
    without rows. *)
Theorem query_data_outcome engine sql_query :
  (∀ df, query_data engine sql_query = Returns df
         ↔ read_sql_query engine sql_query = Returns df ∧ raw_rows df ≠ [])
  ∧ ∀ e, query_data engine sql_query = Raises e
         ↔ read_sql_query engine sql_query = Raises e
           ∨ (e = ValueError
              ∧ ∃ df, read_sql_query engine sql_query = Returns df
                      ∧ raw_rows df = []).
Proof.
  unfold query_data, empty.
  destruct (read_sql_query engine sql_query) as [df|e0]; split.
  - intros df'. destruct (raw_rows df) eqn:Hrows.
    + split; [done|]. intros [[= <-] Hne]. by rewrite Hrows in Hne.
    + split; [intros [= <-]|intros [[= <-] _]]; [|done].
      split; [done|]. by rewrite Hrows.
  - intros e. destruct (raw_rows df) eqn:Hrows.
    + split; [intros [= <-]|intros [|[-> _]]; done].
      right. split; [done|]. by exists df.
    + split; [done|]. intros [|[_ (df' & [= <-] & Hnil)]]; [done|].
      by rewrite Hrows in Hnil.
  - intros df. split; [by destruct e0|by intros [? _]].
  - intros e. split.
    + destruct e0; intros [= <-]; by left.
    + intros [[= ->]|[_ (df & ? & _)]]; [by destruct e|done].
Qed.

End Query.

(** ** The shared logger *)

Lemma constructed_cons logging_level logging_levels logger :
  constructed (logging_level :: logging_levels) logger
  = constructed logging_levels (initialize_logging logging_level logger).
Proof. reflexivity. Qed.


Lemma handlers_initialize_logging logging_level logger :
  handlers (initialize_logging logging_level logger)
  = match handlers logger with
    | [] =>
        if String.eqb (upper logging_level) "NONE" then []
        else [StreamHandler
                "%(asctime)s - %(name)s - %(levelname)s - %(message)s"]
    | hs => hs
    end.
Proof.
  unfold initialize_logging, configure. simpl.
  destruct (String.eqb_spec (upper logging_level) "DEBUG") as [->|_];
    [by destruct (handlers logger)|].
  destruct (String.eqb_spec (upper logging_level) "INFO") as [->|_];
    [by destruct (handlers logger)|].
  destruct (String.eqb (upper logging_level) "NONE");
    by destruct (handlers logger).
Qed.

(** X21: however many processors are constructed, the logger gets at most
    one handler from them: the handlers it had are kept as they are, and a
    logger without handler gets one handler at the first construction whose
    level is not NONE. *)
Theorem constructed_handlers logging_levels logger :
  handlers (constructed logging_levels logger)
  = match handlers logger with
    | [] =>
        if existsb (fun l => negb (String.eqb (upper l) "NONE")) logging_levels
        then [StreamHandler
                "%(asctime)s - %(name)s - %(levelname)s - %(message)s"]
        else []
    | hs => hs
    end.
Proof.
  revert logger.
  induction logging_levels as [|l logging_levels IH]; intros logger.
  - simpl. by destruct (handlers logger).
  - rewrite constructed_cons, IH, handlers_initialize_logging. simpl.
    destruct (handlers logger); [|done].
    by destruct (String.eqb (upper l) "NONE").
Qed.

Lemma disabled_initialize_logging logging_level logger :
  disabled logger = true →
  disabled (initialize_logging logging_level logger) = true.
Proof.
  intros Hd. unfold initialize_logging, configure. simpl.
  repeat (destruct (String.eqb _ _)); simpl; try done;
    by destruct (handlers logger).
Qed.

Lemma disabled_constructed logging_levels logger :
  disabled logger = true →
  disabled (constructed logging_levels logger) = true.
Proof.
  revert logger.
  induction logging_levels as [|l logging_levels IH]; intros logger Hd;
    [done|].
  rewrite constructed_cons. by apply IH, disabled_initialize_logging.
Qed.

(** X22: a construction with level NONE, in any letter case, disables the
    logger for good: no later construction, whatever its level, enables it
    again, and no record of any level passes [isEnabledFor]. *)
Theorem constructed_NONE_disables before logging_level after logger :
  upper logging_level = "NONE" →
  disabled (constructed (before ++ logging_level :: after) logger) = true
  ∧ ∀ inherited lvl,
      isEnabledFor inherited
        (constructed (before ++ logging_level :: after) logger) lvl = false.
Proof.
  intros Hnone.
  assert (disabled (constructed (before ++ logging_level :: after) logger)
          = true) as Hd.
  { unfold constructed. rewrite foldl_app. simpl.
    apply disabled_constructed.
    unfold initialize_logging. by rewrite Hnone. }
  split; [done|]. intros inherited lvl. unfold isEnabledFor. by rewrite Hd.
Qed.


(** X24: constructing a second processor with the same level changes
    nothing in the logger. *)
Theorem initialize_logging_idempotent logging_level logger :
  initialize_logging logging_level (initialize_logging logging_level logger)
  = initialize_logging logging_level logger.
Proof.
  unfold initialize_logging, configure. simpl.
  repeat (destruct (String.eqb _ _)); simpl; try done;
    by destruct (handlers logger).
Qed.

(** ** The crop types *)

Lemma head_lstrip s c :
  head (PyFloat.lstrip s) = Some c → PyFloat.is_space c = false.
Proof.
  induction s as [|c' s IH]; [done|]. simpl.
  destruct (PyFloat.is_space c') eqn:Hc'; [done|]. by intros [= <-].
Qed.

Lemma last_strip s c :
  last (PyFloat.strip s) = Some c → PyFloat.is_space c = false.
Proof. unfold PyFloat.strip. rewrite last_reverse. apply head_lstrip. Qed.

Lemma str_strip_last crop stripped c :
  str_strip crop = stripped →
  last (list_ascii_of_string stripped) = Some c →
  PyFloat.is_space c = false.
Proof.
  intros <-. unfold str_strip.
  rewrite list_ascii_of_string_of_list_ascii. apply last_strip.
Qed.

(** X25: the assertion of [test_crop_types_are_valid] holds exactly when
    every crop type of the column, stripped, is one of the eight names
    without a trailing space: the entries "cassava ", "wheat " and "tea "
    of the list are never equal to a stripped string. *)
Theorem test_crop_types_are_valid_iff Crop_type :
  test_crop_types_are_valid Crop_type = true
  ↔ ∀ crop, crop ∈ Crop_type → str_strip crop ∈ crop_names.
Proof.
  unfold test_crop_types_are_valid. rewrite forallb_forall.
  assert (∀ crop, str_strip crop ∈ valid_crop_types
                  ↔ str_strip crop ∈ crop_names) as Hvalid.
  { intros crop. change valid_crop_types
      with (crop_names ++ ["cassava "; "wheat "; "tea "]).
    rewrite elem_of_app. split; [|by left].
    intros [Hin|Hin]; [done|]. exfalso.
    assert (∃ c, last (list_ascii_of_string (str_strip crop)) = Some c
                 ∧ PyFloat.is_space c = true) as (c & Hlast & Hspace).
    { apply list_elem_of_In in Hin.
      destruct Hin as [<-|[<-|[<-|[]]]]; by eexists. }
    by rewrite (str_strip_last crop _ c eq_refl Hlast) in Hspace. }
  split.
  - intros Hall crop Hcrop. apply Hvalid.
    eapply bool_decide_eq_true_1, Hall.
    by apply list_elem_of_In, elem_of_remove_dups.
  - intros Hall crop Hcrop. apply bool_decide_eq_true_2, Hvalid, Hall.
    by apply elem_of_remove_dups, list_elem_of_In.
Qed.

(** ** The properties on concrete inputs *)

Lemma process_messages_raises_inv_witness :
  let p := Example.rain_processor [Example.well_formed; Example.malformed] in
  process_messages p = Raise ValueError p
  ∧ p = p
  ∧ ∃ df, weather_df p = Some df
          ∧ ((raw_rows df = [] ∧ ValueError = ValueError)
             ∨ ∃ earlier r later,
                 raw_rows df = earlier ++ r :: later
                 ∧ Forall (fun r' => ∃ kv, extract_measurement p (Message r')
                                           = Returns kv) earlier
                 ∧ extract_measurement p (Message r) = Raises ValueError).
Proof.
  intros p.
  assert (process_messages p = Raise ValueError p) as Hp
    by (vm_compute; reflexivity).
  split; [exact Hp|]. exact (process_messages_raises_inv p ValueError p Hp).
Defined.

Lemma process_messages_no_rows_witness :
  process_messages (set_weather_df Example.processor (Raw_frame []))
  = Raise ValueError (set_weather_df Example.processor (Raw_frame [])).
Proof.
  apply (process_messages_no_rows
           (set_weather_df Example.processor (Raw_frame [])) (Raw_frame []));
    reflexivity.
Defined.

Lemma process_messages_returns_inv_witness :
  let df := Annotated_frame
              (zip_with annotate Example.station_rows Example.extracted) in
  process_messages Example.loaded
  = Return (Some df) (set_weather_df Example.loaded df)
  ∧ ∃ loaded rows',
      weather_df Example.loaded = Some loaded
      ∧ df = Annotated_frame rows'
      ∧ set_weather_df Example.loaded df = set_weather_df Example.loaded df
      ∧ rows' ≠ []
      ∧ raw <$> rows' = raw_rows loaded
      ∧ Forall (fun r => match Measurement r with
                         | None => PrimFloat.is_nan (Value r) = true
                         | Some key => key ∈ (patterns Example.loaded).*1
                         end) rows'.
Proof.
  intros df.
  assert (process_messages Example.loaded
          = Return (Some df) (set_weather_df Example.loaded df)) as Hp
    by (vm_compute; reflexivity).
  split; [exact Hp|].
  exact (process_messages_returns_inv Example.loaded df _ Hp).
Defined.

Lemma process_messages_overwrites_witness :
  process_messages
    (set_weather_df Example.processor (Raw_frame [Example.record "S9" ""]))
  = match process_messages
            (set_weather_df Example.processor Sample.stale) with
    | Return out self' => Return out self'
    | Raise e _ =>
        Raise e
          (set_weather_df Example.processor
             (Raw_frame [Example.record "S9" ""]))
    end.
Proof.
  apply (process_messages_overwrites Example.processor
           (Raw_frame [Example.record "S9" ""]) Sample.stale).
  reflexivity.
Defined.

Lemma process_load_failure_witness :
  process Sample.unreachable_processor
  = Raise (OtherError "HTTPError") Sample.unreachable_processor.
Proof.
  apply (process_load_failure Sample.unreachable_processor
           (OtherError "HTTPError")).
  reflexivity.
Defined.


Lemma process_then_calculate_means_witness :
  let rows' := zip_with annotate Example.station_rows Example.extracted in
  ∃ t, (process ;; calculate_means) Example.processor
       = Return (Some t)
           (set_weather_df Example.processor (Annotated_frame rows'))
     ∧ ∀ s k, cell t s k
              = if decide (s ∈ grouped_stations rows' ∧ k ∈ grouped_kinds rows')
                then Some match present_values rows' s k with
                          | [] => nan
                          | xs => arithmetic_mean xs
                          end
                else None.
Proof.
  apply (process_then_calculate_means Example.processor
           (Raw_frame Example.station_rows) Example.extracted).
  - reflexivity.
  - discriminate.
  - repeat (constructor; [vm_compute; reflexivity|]). constructor.
Defined.

Lemma process_ignores_previous_table_witness :
  process Sample.reloading_processor = process Example.processor.
Proof.
  apply (process_ignores_previous_table Example.processor
           (Raw_frame Example.station_rows) Sample.stale).
  reflexivity.
Defined.

Lemma calculate_means_labels_sorted_witness :
  let t := unstack (mean <$> groupby Example.scenario) in
  StronglySorted (fun a b : string => Is_true (String.leb a b)) (index t)
  ∧ NoDup (index t)
  ∧ StronglySorted (fun a b : string => Is_true (String.leb a b)) (columns t)
  ∧ NoDup (columns t).
Proof.
  apply (calculate_means_labels_sorted Sample.aggregated _ Sample.aggregated).
  reflexivity.
Defined.

Lemma calculate_means_groupwise_witness :
  ∃ t, calculate_means
         (set_weather_df Example.processor
            (Annotated_frame Sample.measured_only))
       = Return (Some t)
           (set_weather_df Example.processor
              (Annotated_frame Sample.measured_only))
     ∧ calculate_means
         (set_weather_df Example.processor (Annotated_frame Sample.mixed))
       = Return (Some t)
           (set_weather_df Example.processor (Annotated_frame Sample.mixed)).
Proof.
  apply (calculate_means_groupwise Example.processor
           Sample.measured_only Sample.mixed).
  intros s k. apply group_values_measured.
Defined.

Lemma calculate_means_labels_permutation_witness :
  index (unstack (mean <$> groupby (reverse Example.scenario)))
  = index (unstack (mean <$> groupby Example.scenario))
  ∧ columns (unstack (mean <$> groupby (reverse Example.scenario)))
    = columns (unstack (mean <$> groupby Example.scenario)).
Proof.
  apply (calculate_means_labels_permutation Example.processor
           (reverse Example.scenario) Example.scenario).
  - apply reverse_Permutation.
  - reflexivity.
  - reflexivity.
Defined.

Lemma calculate_means_cell_has_row_witness :
  ∃ rows r, weather_df Sample.aggregated = Some (Annotated_frame rows)
            ∧ r ∈ rows
            ∧ Weather_station_ID (raw r) = "S1"
            ∧ Measurement r = Some "temp"
            ∧ PrimFloat.is_nan (Value r) = false.
Proof.
  apply (calculate_means_cell_has_row Sample.aggregated
           (unstack (mean <$> groupby Example.scenario)) Sample.aggregated
           "S1" "temp" 25%float).
  - reflexivity.
  - vm_compute. reflexivity.
  - reflexivity.
Defined.

Lemma create_db_engine_raises_inv_witness :
  create_db_engine "postgresql://farm" = Raises (OtherError "UnboundLocalError")
  ∧ is_ImportError (OtherError "UnboundLocalError") = false
  ∧ ∃ e0, (create_engine "postgresql://farm" = Raises e0
           ∨ ∃ engine, create_engine "postgresql://farm" = Returns engine
                       ∧ connect engine = Raises e0)
          ∧ OtherError "UnboundLocalError"
            = if is_ImportError e0 then OtherError "UnboundLocalError"
              else e0.
Proof.
  split; [reflexivity|].
  apply (create_db_engine_raises_inv "postgresql://farm"
           (OtherError "UnboundLocalError")).
  reflexivity.
Defined.

Lemma create_db_engine_returns_inv_witness :
  create_engine "sqlite:///farm.db" = Returns "sqlite:///farm.db"
  ∧ connect "sqlite:///farm.db" = Returns ().
Proof.
  apply (create_db_engine_returns_inv "sqlite:///farm.db" "sqlite:///farm.db").
  reflexivity.
Defined.

Lemma constructed_NONE_disables_witness :
  disabled (constructed (["INFO"] ++ "none" :: ["DEBUG"]) new_logger) = true
  ∧ ∀ inherited lvl,
      isEnabledFor inherited
        (constructed (["INFO"] ++ "none" :: ["DEBUG"]) new_logger) lvl = false.
Proof.
  apply (constructed_NONE_disables ["INFO"] "none" ["DEBUG"] new_logger).
  reflexivity.
Defined.


Lemma query_data_outcome_witness :
  @query_data Sample.library "sqlite:///farm.db" "SELECT * FROM weather"
  = Returns (Raw_frame [Example.record "S1" "Temperature: 20C"])
  ∧ @query_data Sample.library "sqlite:///farm.db" "SELECT * FROM field"
    = Raises ValueError.
Proof.
  split.
  - apply (proj1 (@query_data_outcome Sample.library "sqlite:///farm.db"
                    "SELECT * FROM weather")).
    split; [reflexivity|discriminate].
  - apply (proj2 (@query_data_outcome Sample.library "sqlite:///farm.db"
                    "SELECT * FROM field")).
    right. split; [reflexivity|]. by exists (Raw_frame []).
Defined.
